(** * CRL revocation checking of notation-core-go

    A shallow embedding of [revocation/internal/crl/crl.go]: the entry
    extension parser, the per-CRL validator, the delta consistency check,
    the revocation resolver and the loop over the CRL distribution points,
    followed by the properties of the revocation-status protocol. *)

From Stdlib Require Import ZArith List String Bool Lia.
From Stdlib Require Import Strings.Byte.
Import ListNotations.

Open Scope string_scope.
Open Scope list_scope.
Open Scope Z_scope.

(** ** Go values used by the package *)

(** [time.Time], as the instant it denotes: nanoseconds since the zero
    time (January 1, year 1, 00:00:00 UTC). *)
Definition Time : Type := Z.

Definition IsZero (t : Time) : bool := t =? 0.
Definition Before (t u : Time) : bool := t <? u.
Definition After (t u : Time) : bool := u <? t.

(** [Cmp] of big.Int: -1, 0 or +1. *)
Definition Cmp (x y : Z) : Z :=
  match x ?= y with
  | Lt => -1
  | Eq => 0
  | Gt => 1
  end.

(** [asn1.ObjectIdentifier] is a slice of integers; [Equal] compares the
    two slices element by element. *)
Definition ObjectIdentifier : Type := list Z.

Fixpoint Equal (oi other : ObjectIdentifier) : bool :=
  match oi, other with
  | [], [] => true
  | a :: oi', b :: other' => (a =? b) && Equal oi' other'
  | _, _ => false
  end.

(** Errors keep the format string of the call that made them and the
    arguments given to it: [errors.New msg] is [New msg],
    [fmt.Errorf format args...] is [Errorf format args]. An error wrapped
    with [%w] is the argument [ArgErr]; [ArgInt] is a big.Int pointer,
    which may be nil. *)
Inductive Error : Type :=
| New (msg : string)
| Errorf (format : string) (args : list Arg)
with Arg : Type :=
| ArgStr (s : string)
| ArgInt (n : option Z)
| ArgTime (t : Time)
| ArgOID (oid : ObjectIdentifier)
| ArgErr (err : Error).

(** A Go call that can end in a run-time panic (a nil dereference). *)
Inductive outcome (A : Type) : Type :=
| Returns (a : A)
| Panics.
Arguments Returns {A} a.
Arguments Panics {A}.

(** [Cmp] on two big.Int pointers, either of which may be nil. The method
    first tests the two pointers for equality, so two nil pointers compare
    equal; otherwise it reads both numbers, and a nil one is a nil
    dereference. *)
Definition CmpInt (x y : option Z) : outcome Z :=
  match x, y with
  | None, None => Returns 0
  | Some x, Some y => Returns (Cmp x y)
  | _, _ => Panics
  end.

(** The records below keep the field names of the Go structs; where two
    structs share a field name, the second one gets a prefix
    ([EntryExtensions], [CertSerialNumber], [CertExtensions], [SRResult],
    [CRResult], ...). Serial numbers, which the x509 parsers always set,
    are taken non-nil. *)

(** [pkix.Extension] *)
Record Extension : Type := mkExtension {
  Id : ObjectIdentifier;
  Critical : bool;
  Value : list byte
}.

(** [x509.RevocationListEntry] *)
Record RevocationListEntry : Type := mkEntry {
  SerialNumber : Z;
  RevocationTime : Time;
  ReasonCode : Z;
  EntryExtensions : list Extension
}.

(** [x509.RevocationList]: the fields the package reads, and the signature
    that [CheckSignatureFrom] inspects. [Number] is a big.Int pointer, nil
    for a CRL without a CRL number extension. *)
Record RevocationList : Type := mkRevocationList {
  Number : option Z;
  NextUpdate : Time;
  RevokedCertificateEntries : list RevocationListEntry;
  Extensions : list Extension;
  Signature : list byte
}.

(** [x509.Certificate]: the fields the package reads. *)
Record Certificate : Type := mkCertificate {
  CertSerialNumber : Z;
  CRLDistributionPoints : list string;
  CertExtensions : list Extension;
  Subject : string
}.

(** Modelled from the spec: the type [crl.Bundle] of the package
    [revocation/crl] (section 3: a base CRL and an optional delta CRL).
    Both fields are pointers in the code, which tests each against nil. *)
Record Bundle : Type := mkBundle {
  BaseCRL : option RevocationList;
  DeltaCRL : option RevocationList
}.

(** Modelled from the spec: the types of the package [revocation/result]
    (section 3: ServerResult and OverallResult), with the names the code
    uses for the four statuses and for the CRL method. *)
Inductive Result : Type :=
| ResultUnknown
| ResultOK
| ResultNonRevokable
| ResultRevoked.

Inductive RevocationMethod : Type :=
| RevocationMethodCRL.

Record ServerResult : Type := mkServerResult {
  SRResult : Result;
  Server : string;
  SRError : option Error;
  SRRevocationMethod : RevocationMethod
}.

Record CertRevocationResult : Type := mkCertRevocationResult {
  CRResult : Result;
  ServerResults : list ServerResult;
  CRRevocationMethod : RevocationMethod
}.

(** ** Constants *)

Definition reasonCodeCertificateHold : Z := 6.
Definition reasonCodeRemoveFromCRL : Z := 8.

Definition oidFreshestCRL : ObjectIdentifier := [2; 5; 29; 46].
Definition oidIssuingDistributionPoint : ObjectIdentifier := [2; 5; 29; 28].
Definition oidDeltaCRLIndicator : ObjectIdentifier := [2; 5; 29; 27].
Definition oidInvalidityDate : ObjectIdentifier := [2; 5; 29; 24].

(** ** The libraries the package calls *)

(** What [asn1.UnmarshalWithParams value &t "generalized"] gives: the time
    decoded and the bytes left over, or an error. *)
Inductive Unmarshalled : Type :=
| Decoded (t : Time) (rest : list byte)
| DecodeError (err : Error).

(** The calls into crypto/x509, encoding/asn1 and cryptobyte, which are not
    part of the package. Every property below holds for any behaviour of
    these functions.
    - [Context] is [context.Context], which the package only hands on to
      the fetcher;
    - [CheckSignatureFrom crl issuer] is the method of x509.RevocationList;
      both pointers may be nil;
    - [UnmarshalGeneralized] is [asn1.UnmarshalWithParams] with the
      parameter "generalized" and a time.Time destination;
    - [ReadASN1Integer value] is the method of [cryptobyte.String] with a
      big.Int destination: the integer read and the advanced string, or
      [None] when it reports false. *)
Class Libraries : Type := {
  Context : Type;
  CheckSignatureFrom :
    option RevocationList -> option Certificate -> outcome (option Error);
  UnmarshalGeneralized : list byte -> Unmarshalled;
  ReadASN1Integer : list byte -> option (Z * list byte)
}.

(** Modelled from the spec: [x509util.FindExtensionByOID] of the package
    [revocation/internal/x509util] (section 4.1: the first extension of the
    ordered list whose identifier is the target, or none). *)
Fixpoint FindExtensionByOID (extensions : list Extension)
    (oid : ObjectIdentifier) : option Extension :=
  match extensions with
  | [] => None
  | ext :: rest =>
      if Equal (Id ext) oid then Some ext else FindExtensionByOID rest oid
  end.

(** ** The world outside the package

    [clock] gives the readings of [time.Now()] still to come, in order;
    [fetched] lists the URLs the fetcher has been called with, oldest
    first. *)
Record World : Type := mkWorld {
  clock : nat -> Time;
  fetched : list string
}.

(** A computation that reads the clock or calls the fetcher. *)
Definition M (A : Type) : Type := World -> outcome A * World.

Definition ret {A : Type} (a : A) : M A := fun w => (Returns a, w).

Definition panic {A : Type} : M A := fun w => (Panics, w).

(** A call that may panic and touches neither the clock nor the fetcher. *)
Definition lift {A : Type} (o : outcome A) : M A := fun w => (o, w).

Definition bind {A B : Type} (c : M A) (k : A -> M B) : M B :=
  fun w =>
    match c w with
    | (Returns a, w') => k a w'
    | (Panics, w') => (Panics, w')
    end.

Notation "x <- c ;; k" := (bind c (fun x => k))
  (at level 61, c at next level, right associativity).

Definition tick (w : World) : World :=
  {| clock := fun n => clock w (S n); fetched := fetched w |}.

Definition called (url : string) (w : World) : World :=
  {| clock := clock w; fetched := fetched w ++ [url] |}.

(** [time.Now()] *)
Definition time_Now : M Time := fun w => (Returns (clock w 0%nat), tick w).

(** Where a [for ... range] loop leaves the function around it: the body
    executed a [return], or the loop ran to its end (or to a [break]) with
    the variables it updates. *)
Inductive loopExit (R S : Type) : Type :=
| Return (r : R)
| Falls (s : S).
Arguments Return {R S} r.
Arguments Falls {R S} s.

Section Package.

Context {lib : Libraries}.

(** ** parseEntryExtensions *)

Record entryExtensions : Type := mkEntryExtensions {
  invalidityDate : Time
}.

(** The zero value [entryExtensions{}] and the declaration
    [var extensions entryExtensions]. *)
Definition entryExtensions_zero : entryExtensions :=
  {| invalidityDate := 0 |}.

(** The loop over [entry.Extensions]; [extensions] is the variable the
    loop assigns to. *)
Fixpoint parseEntryExtensions_range (exts : list Extension)
    (extensions : entryExtensions) : entryExtensions * option Error :=
  match exts with
  | [] => (extensions, None)
  | ext :: exts' =>
      if Equal (Id ext) oidInvalidityDate then
        match UnmarshalGeneralized (Value ext) with
        | DecodeError err =>
            (entryExtensions_zero,
             Some (Errorf "failed to parse invalidity date: %w" [ArgErr err]))
        | Decoded t rest =>
            if (0 <? Z.of_nat (List.length rest)) then
              (entryExtensions_zero,
               Some (Errorf "invalid invalidity date extension: trailing data" []))
            else
              parseEntryExtensions_range exts' {| invalidityDate := t |}
        end
      else if Critical ext then
        (entryExtensions_zero,
         Some (Errorf "unsupported critical extension found in CRL: %v"
                      [ArgOID (Id ext)]))
      else parseEntryExtensions_range exts' extensions
  end.

Definition parseEntryExtensions (entry : RevocationListEntry)
    : entryExtensions * option Error :=
  parseEntryExtensions_range (EntryExtensions entry) entryExtensions_zero.

(** ** checkRevocation *)

(** [revocationListIter]: the entries of the base CRL in stored order, then
    those of the delta CRL when there is one. The code yields them one at a
    time and stops producing when the loop body returns. *)
Definition revocationListIter (base : RevocationList)
    (delta : option RevocationList) : list RevocationListEntry :=
  RevokedCertificateEntries base ++
  match delta with
  | Some d => RevokedCertificateEntries d
  | None => []
  end.

Definition serverResult (r : Result) (crlURL : string) : ServerResult :=
  {| SRResult := r; Server := crlURL; SRError := None;
     SRRevocationMethod := RevocationMethodCRL |}.

(** The test of lines 315-316: the signing time is set, the entry has an
    invalidity date, and the signing time is before it. *)
Definition signedBeforeInvalidity (signingTime : Time)
    (extensions : entryExtensions) : bool :=
  negb (IsZero signingTime)
  && negb (IsZero (invalidityDate extensions))
  && Before signingTime (invalidityDate extensions).

(** The loop of [checkRevocation] over the merged entries;
    [latestTempRevokedEntry] is the variable the loop assigns to. *)
Fixpoint checkRevocation_range (cert : Certificate) (signingTime : Time)
    (crlURL : string) (entries : list RevocationListEntry)
    (latestTempRevokedEntry : option RevocationListEntry)
    : loopExit (option ServerResult * option Error)
               (option RevocationListEntry) :=
  match entries with
  | [] => Falls latestTempRevokedEntry
  | revocationEntry :: entries' =>
      if Cmp (SerialNumber revocationEntry) (CertSerialNumber cert) =? 0 then
        match parseEntryExtensions revocationEntry with
        | (_, Some err) => Return (None, Some err)
        | (extensions, None) =>
            if signedBeforeInvalidity signingTime extensions
            then Return (Some (serverResult ResultOK crlURL), None)
            else if (ReasonCode revocationEntry =? reasonCodeCertificateHold)
                    || (ReasonCode revocationEntry =? reasonCodeRemoveFromCRL)
            then
              checkRevocation_range cert signingTime crlURL entries'
                match latestTempRevokedEntry with
                | None => Some revocationEntry
                | Some latest =>
                    if Before (RevocationTime latest)
                              (RevocationTime revocationEntry)
                    then Some revocationEntry
                    else latestTempRevokedEntry
                end
            else Return (Some (serverResult ResultRevoked crlURL), None)
        end
      else
        checkRevocation_range cert signingTime crlURL entries'
          latestTempRevokedEntry
  end.

Definition checkRevocation (cert : option Certificate) (b : option Bundle)
    (signingTime : Time) (crlURL : string)
    : option ServerResult * option Error :=
  match cert with
  | None => (None, Some (New "certificate cannot be nil"))
  | Some cert =>
  match b with
  | None => (None, Some (New "CRL bundle cannot be nil"))
  | Some b =>
  match BaseCRL b with
  | None => (None, Some (New "baseCRL cannot be nil"))
  | Some base =>
      match checkRevocation_range cert signingTime crlURL
              (revocationListIter base (DeltaCRL b)) None with
      | Return r => r
      | Falls latestTempRevokedEntry =>
          match latestTempRevokedEntry with
          | Some latest =>
              if ReasonCode latest =? reasonCodeCertificateHold
              then (Some (serverResult ResultRevoked crlURL), None)
              else (Some (serverResult ResultOK crlURL), None)
          | None => (Some (serverResult ResultOK crlURL), None)
          end
      end
  end end end.

(** ** validateCRL *)

(** The loop over [crl.Extensions]. *)
Fixpoint validateCRL_range (exts : list Extension) : option Error :=
  match exts with
  | [] => None
  | ext :: exts' =>
      if Equal (Id ext) oidIssuingDistributionPoint then
        validateCRL_range exts'
      else if Equal (Id ext) oidDeltaCRLIndicator then
        validateCRL_range exts'
      else if Critical ext then
        Some (Errorf "unsupported critical extension found in CRL: %v"
                     [ArgOID (Id ext)])
      else validateCRL_range exts'
  end.

Definition validateCRL (crl : option RevocationList)
    (issuer : option Certificate) : M (option Error) :=
  match CheckSignatureFrom crl issuer with
  | Panics => panic
  | Returns (Some err) =>
      match issuer with
      | None => panic
      | Some issuer =>
          ret (Some (Errorf "CRL is not signed by CA %s: %w,"
                            [ArgStr (Subject issuer); ArgErr err]))
      end
  | Returns None =>
      match crl with
      | None => panic
      | Some crl =>
          if IsZero (NextUpdate crl) then
            ret (Some (New "CRL NextUpdate is not set"))
          else
            now <- time_Now ;;
            if After now (NextUpdate crl) then
              ret (Some (Errorf
                "expired CRL. Current time %v is after CRL NextUpdate %v"
                [ArgTime now; ArgTime (NextUpdate crl)]))
            else ret (validateCRL_range (Extensions crl))
      end
  end.

(** ** validate *)

Definition validate (bundle : option Bundle) (issuer : option Certificate)
    : M (option Error) :=
  match bundle with
  | None => panic
  | Some bundle =>
      let baseCRL := BaseCRL bundle in
      err <- validateCRL baseCRL issuer ;;
      match err with
      | Some err =>
          ret (Some (Errorf "failed to validate base CRL: %w" [ArgErr err]))
      | None =>
      match DeltaCRL bundle with
      | None => ret None
      | Some deltaCRL =>
          err <- validateCRL (Some deltaCRL) issuer ;;
          match err with
          | Some err =>
              ret (Some (Errorf "failed to validate delta CRL: %w"
                                [ArgErr err]))
          | None =>
          match baseCRL with
          | None => panic
          | Some baseCRL =>
              cmp <- lift (CmpInt (Number deltaCRL) (Number baseCRL)) ;;
              if cmp <=? 0 then
                ret (Some (Errorf
                  "delta CRL number %d is not greater than the base CRL number %d"
                  [ArgInt (Number deltaCRL); ArgInt (Number baseCRL)]))
              else
                match FindExtensionByOID (Extensions deltaCRL)
                        oidDeltaCRLIndicator with
                | None =>
                    ret (Some (New "delta CRL indicator extension is not found"))
                | Some extension =>
                    match ReadASN1Integer (Value extension) with
                    | None =>
                        ret (Some (New
                          "failed to parse delta CRL indicator extension"))
                    | Some (minimumBaseCRLNumber, _) =>
                        cmp <- lift (CmpInt (Some minimumBaseCRLNumber)
                                            (Number baseCRL)) ;;
                        if cmp >? 0 then
                          ret (Some (Errorf
                            "delta CRL indicator %d is not less than or equal to the base CRL number %d"
                            [ArgInt (Some minimumBaseCRLNumber);
                             ArgInt (Number baseCRL)]))
                        else ret None
                    end
                end
          end
          end
      end
      end
  end.

(** ** CertCheckStatus *)

(** Modelled from the spec: the interface [crl.Fetcher] of the package
    [revocation/crl] (section 6: fetch(url) gives a bundle or an error).
    A fetcher has state of its own (a cache, the network), so its answer
    to a call may depend on the calls made before it: [Fetch ctx earlier
    url] is the pair of results of [Fetch(ctx, url)] after the calls
    [earlier]. *)
Record crl_Fetcher : Type := mkFetcher {
  Fetch : Context -> list string -> string -> option Bundle * option Error
}.

Definition call_Fetch (f : crl_Fetcher) (ctx : Context) (url : string)
    : M (option Bundle * option Error) :=
  fun w => (Returns (Fetch f ctx (fetched w) url), called url w).

Record CertCheckStatusOptions : Type := mkOptions {
  Fetcher : option crl_Fetcher;
  SigningTime : Time
}.

Definition Supported (cert : option Certificate) : bool :=
  match cert with
  | None => false
  | Some cert => 0 <? Z.of_nat (List.length (CRLDistributionPoints cert))
  end.

(** The variables of [CertCheckStatus] that its loop assigns to. *)
Record loopVars : Type := mkLoopVars {
  serverResults : list ServerResult;
  lastErr : option Error;
  crlURL : string
}.

(** The loop over [cert.CRLDistributionPoints]. A [break] leaves the loop
    with [lastErr] set. *)
Fixpoint CertCheckStatus_range (ctx : Context) (cert : Certificate)
    (issuer : option Certificate) (fetcher : crl_Fetcher)
    (signingTime : Time) (hasFreshestCRLInCertificate : bool)
    (urls : list string) (vars : loopVars)
    : M (loopExit CertRevocationResult loopVars) :=
  match urls with
  | [] => ret (Falls vars)
  | url :: urls' =>
      let break (e : Error) : M (loopExit CertRevocationResult loopVars) :=
        ret (Falls {| serverResults := serverResults vars;
                      lastErr := Some e; crlURL := url |}) in
      fetchedBundle <- call_Fetch fetcher ctx url ;;
      match fetchedBundle with
      | (_, Some err) =>
          break (Errorf "failed to download CRL from %s: %w"
                        [ArgStr url; ArgErr err])
      | (bundle, None) =>
          deltaIsNil <-
            (if hasFreshestCRLInCertificate then
               match bundle with
               | None => panic
               | Some b =>
                   ret (match DeltaCRL b with None => true | Some _ => false end)
               end
             else ret false) ;;
          if deltaIsNil then
            break (New "freshest CRL from certificate extension is not supported")
          else
            err <- validate bundle issuer ;;
            match err with
            | Some err =>
                break (Errorf "failed to validate CRL from %s: %w"
                              [ArgStr url; ArgErr err])
            | None =>
                match checkRevocation (Some cert) bundle signingTime url with
                | (_, Some err) =>
                    break (Errorf
                      "failed to check revocation status from %s: %w"
                      [ArgStr url; ArgErr err])
                | (None, None) => panic
                | (Some crlResult, None) =>
                    match SRResult crlResult with
                    | ResultRevoked =>
                        ret (Return
                          {| CRResult := ResultRevoked;
                             ServerResults := [crlResult];
                             CRRevocationMethod := RevocationMethodCRL |})
                    | _ =>
                        CertCheckStatus_range ctx cert issuer fetcher
                          signingTime hasFreshestCRLInCertificate urls'
                          {| serverResults := serverResults vars ++ [crlResult];
                             lastErr := lastErr vars; crlURL := url |}
                    end
                end
            end
      end
  end.

Definition CertCheckStatus (ctx : Context) (cert issuer : option Certificate)
    (opts : CertCheckStatusOptions) : M CertRevocationResult :=
  if negb (Supported cert) then
    ret {| CRResult := ResultNonRevokable;
           ServerResults :=
             [{| SRResult := ResultNonRevokable; Server := "";
                 SRError := Some (New "CRL is not supported");
                 SRRevocationMethod := RevocationMethodCRL |}];
           CRRevocationMethod := RevocationMethodCRL |}
  else
  match Fetcher opts with
  | None =>
      ret {| CRResult := ResultUnknown;
             ServerResults :=
               [{| SRResult := ResultUnknown; Server := "";
                   SRError := Some (New "CRL fetcher cannot be nil");
                   SRRevocationMethod := RevocationMethodCRL |}];
             CRRevocationMethod := RevocationMethodCRL |}
  | Some fetcher =>
  match cert with
  | None => panic
  | Some cert =>
      let hasFreshestCRLInCertificate :=
        match FindExtensionByOID (CertExtensions cert) oidFreshestCRL with
        | Some _ => true
        | None => false
        end in
      exit <- CertCheckStatus_range ctx cert issuer fetcher (SigningTime opts)
                hasFreshestCRLInCertificate (CRLDistributionPoints cert)
                {| serverResults := []; lastErr := None; crlURL := "" |} ;;
      match exit with
      | Return r => ret r
      | Falls vars =>
          match lastErr vars with
          | Some e =>
              ret {| CRResult := ResultUnknown;
                     ServerResults :=
                       [{| SRResult := ResultUnknown;
                           Server := crlURL vars;
                           SRError := Some e;
                           SRRevocationMethod := RevocationMethodCRL |}];
                     CRRevocationMethod := RevocationMethodCRL |}
          | None =>
              ret {| CRResult := ResultOK;
                     ServerResults := serverResults vars;
                     CRRevocationMethod := RevocationMethodCRL |}
          end
      end
  end
  end.

End Package.

(** ** Test doubles for the libraries

    Stand-ins for the three library calls, used to run the package on
    concrete inputs. Each agrees with its library on the inputs listed. *)
Module Doubles.

(** The DER encodings of the GeneralizedTime values 20240101000000Z and
    20240110000000Z, and the instants they denote (62135596800 seconds lie
    between the zero time and the Unix epoch). *)
Definition der_20240101 : list byte :=
  [x18; x0f; x32; x30; x32; x34; x30; x31; x30; x31;
   x30; x30; x30; x30; x30; x30; x5a].
Definition der_20240110 : list byte :=
  [x18; x0f; x32; x30; x32; x34; x30; x31; x31; x30;
   x30; x30; x30; x30; x30; x30; x5a].
Definition t_20240101 : Time := (62135596800 + 1704067200) * 1000000000.
Definition t_20240110 : Time := (62135596800 + 1704844800) * 1000000000.

(** [stripPrefix p l] is what follows [p] in [l], when [l] starts with
    [p]. *)
Fixpoint stripPrefix (p l : list byte) : option (list byte) :=
  match p, l with
  | [], _ => Some l
  | a :: p', b :: l' => if Byte.eqb a b then stripPrefix p' l' else None
  | _ :: _, [] => None
  end.

(** Decodes the two encodings above and rejects every other value. *)
Definition unmarshalGeneralized (value : list byte) : Unmarshalled :=
  match stripPrefix der_20240101 value with
  | Some rest => Decoded t_20240101 rest
  | None =>
      match stripPrefix der_20240110 value with
      | Some rest => Decoded t_20240110 rest
      | None => DecodeError (New "asn1: structure error")
      end
  end.

(** Reads a DER INTEGER of one content octet below 0x80. *)
Definition readASN1Integer (value : list byte) : option (Z * list byte) :=
  match value with
  | x02 :: x01 :: b :: rest =>
      if (Z.of_N (Byte.to_N b) <? 128)
      then Some (Z.of_N (Byte.to_N b), rest)
      else None
  | _ => None
  end.

(** Accepts the CRLs whose signature is the single octet 0x01; a nil CRL
    or issuer panics. *)
Definition checkSignatureFrom (crl : option RevocationList)
    (issuer : option Certificate) : outcome (option Error) :=
  match crl, issuer with
  | Some crl, Some _ =>
      match Signature crl with
      | [x01] => Returns None
      | _ => Returns (Some (New "crypto/rsa: verification error"))
      end
  | _, _ => Panics
  end.

#[export] Instance libraries : Libraries := {|
  Context := unit;
  CheckSignatureFrom := checkSignatureFrom;
  UnmarshalGeneralized := unmarshalGeneralized;
  ReadASN1Integer := readASN1Integer
|}.

Definition invalidityDateExt (value : list byte) : Extension :=
  {| Id := oidInvalidityDate; Critical := false; Value := value |}.

(** An entry extension the package does not know, marked critical. *)
Definition unknownCritical : Extension :=
  {| Id := [2; 5; 29; 99]; Critical := true; Value := [] |}.

Definition entry (serial : Z) (t : Time) (reason : Z)
    (exts : list Extension) : RevocationListEntry :=
  {| SerialNumber := serial; RevocationTime := t; ReasonCode := reason;
     EntryExtensions := exts |}.

Definition crlOf (number : Z) (nextUpdate : Time)
    (entries : list RevocationListEntry) (exts : list Extension)
    : RevocationList :=
  {| Number := Some number; NextUpdate := nextUpdate;
     RevokedCertificateEntries := entries; Extensions := exts;
     Signature := [x01] |}.

(** A CRL without a CRL number extension: its [Number] is nil. *)
Definition crlWithoutNumber (nextUpdate : Time)
    (entries : list RevocationListEntry) (exts : list Extension)
    : RevocationList :=
  {| Number := None; NextUpdate := nextUpdate;
     RevokedCertificateEntries := entries; Extensions := exts;
     Signature := [x01] |}.

Definition deltaIndicator (value : list byte) : Extension :=
  {| Id := oidDeltaCRLIndicator; Critical := true; Value := value |}.

Definition cert42 (urls : list string) : Certificate :=
  {| CertSerialNumber := 42; CRLDistributionPoints := urls;
     CertExtensions := []; Subject := "CN=leaf" |}.

Definition issuer : Certificate :=
  {| CertSerialNumber := 1; CRLDistributionPoints := [];
     CertExtensions := []; Subject := "CN=ca" |}.

(** A clock that reads 1000, 1001, 1002, ... and a fetcher not called
    yet. *)
Definition world0 : World :=
  {| clock := fun n => 1000 + Z.of_nat n; fetched := [] |}.

(** A fetcher that answers from a table and fails for the URLs that are
    not in it. *)
Fixpoint lookup (table : list (string * (option Bundle * option Error)))
    (url : string) : option Bundle * option Error :=
  match table with
  | [] => (None, Some (New "no such CRL"))
  | (u, answer) :: table' =>
      if String.eqb u url then answer else lookup table' url
  end.

Definition fetcherOf (table : list (string * (option Bundle * option Error)))
    : crl_Fetcher :=
  {| Fetch := fun _ _ url => lookup table url |}.

(** A base CRL with no entry for serial 42, and one that revokes it for
    keyCompromise. *)
Definition cleanBundle : Bundle :=
  mkBundle (Some (crlOf 5 2000 [entry 7 10 1 []] [])) None.
Definition revokingBundle : Bundle :=
  mkBundle (Some (crlOf 5 2000 [entry 42 10 1 []] [])) None.

End Doubles.

(** * Predicates of the statements *)

Section Predicates.

Context {lib : Libraries}.

(** An extension on which [parseEntryExtensions] stops with an error: an
    invalidity date that does not decode, one followed by trailing bytes,
    or a critical extension with another identifier. *)
Definition rejected (ext : Extension) : Prop :=
  (Id ext = oidInvalidityDate /\
   exists err, UnmarshalGeneralized (Value ext) = DecodeError err)
  \/ (Id ext = oidInvalidityDate /\
      exists t rest,
        UnmarshalGeneralized (Value ext) = Decoded t rest /\ rest <> [])
  \/ (Id ext <> oidInvalidityDate /\ Critical ext = true).

Definition withExtensions (entry : RevocationListEntry)
    (exts : list Extension) : RevocationListEntry :=
  {| SerialNumber := SerialNumber entry;
     RevocationTime := RevocationTime entry;
     ReasonCode := ReasonCode entry;
     EntryExtensions := exts |}.

(** The walk of [checkRevocation] gets through the entries [pre] without
    returning, and leaves [latest] in [latestTempRevokedEntry]: the entry
    that follows [pre] is reached. *)
Definition reaches (cert : Certificate) (signingTime : Time)
    (crlURL : string) (pre : list RevocationListEntry)
    (latest : option RevocationListEntry) : Prop :=
  checkRevocation_range cert signingTime crlURL pre None = Falls latest.

(** The assignment of lines 329-332. *)
Definition later (latest : option RevocationListEntry)
    (e : RevocationListEntry) : option RevocationListEntry :=
  match latest with
  | None => Some e
  | Some l =>
      if Before (RevocationTime l) (RevocationTime e) then Some e else latest
  end.

(** The entry makes the walk stop with OK at lines 315-324. *)
Definition shortCircuits (signingTime : Time) (e : RevocationListEntry)
    : bool :=
  match parseEntryExtensions e with
  | (extensions, None) => signedBeforeInvalidity signingTime extensions
  | (_, Some _) => false
  end.

(** The reason code is certificateHold or removeFromCRL. *)
Definition temporary (e : RevocationListEntry) : Prop :=
  ReasonCode e = reasonCodeCertificateHold \/
  ReasonCode e = reasonCodeRemoveFromCRL.

(** The entries of the merged sequence with the serial number of the
    certificate, in order. *)
Definition matching (cert : Certificate)
    (entries : list RevocationListEntry) : list RevocationListEntry :=
  filter (fun e => SerialNumber e =? CertSerialNumber cert) entries.

(** [latest] is, among [entries], the first one with the latest revocation
    time: every entry before it is strictly earlier, none after it is
    later. It is nil exactly when there are no entries. *)
Definition tracks (entries : list RevocationListEntry)
    (latest : option RevocationListEntry) : Prop :=
  match latest with
  | None => entries = []
  | Some t =>
      exists before after,
        entries = before ++ t :: after /\
        (forall x, In x before -> RevocationTime x < RevocationTime t) /\
        (forall x, In x after -> RevocationTime x <= RevocationTime t)
  end.

(** A CRL extension that [validateCRL] lets through: an issuing
    distribution point, a delta CRL indicator, or one not marked critical. *)
Definition accepted (ext : Extension) : Prop :=
  Id ext = oidIssuingDistributionPoint \/
  Id ext = oidDeltaCRLIndicator \/
  Critical ext = false.

(** The four errors of the delta checks of [validate], lines 216-232. *)
Definition errDeltaNumber (deltaNumber baseNumber : option Z) : Error :=
  Errorf "delta CRL number %d is not greater than the base CRL number %d"
         [ArgInt deltaNumber; ArgInt baseNumber].
Definition errIndicatorNotFound : Error :=
  New "delta CRL indicator extension is not found".
Definition errIndicatorParse : Error :=
  New "failed to parse delta CRL indicator extension".
Definition errIndicatorTooLarge (minimumBaseCRLNumber : Z)
    (baseNumber : option Z) : Error :=
  Errorf
    "delta CRL indicator %d is not less than or equal to the base CRL number %d"
    [ArgInt (Some minimumBaseCRLNumber); ArgInt baseNumber].

(** [hasFreshestCRLInCertificate], line 118. *)
Definition hasFreshestCRL (cert : Certificate) : bool :=
  match FindExtensionByOID (CertExtensions cert) oidFreshestCRL with
  | Some _ => true
  | None => false
  end.

(** The steps of [CertCheckStatus] for one URL, taken in the world [w], go
    through without error and resolve to [crlResult], leaving the world
    [w']: the fetch gives a bundle, the bundle has a delta CRL if the
    certificate has a freshest-CRL extension, the bundle validates, and
    [checkRevocation] returns [crlResult]. *)
Definition resolves (ctx : Context) (cert : Certificate)
    (issuer : option Certificate) (fetcher : crl_Fetcher)
    (signingTime : Time) (url : string) (w : World)
    (crlResult : ServerResult) (w' : World) : Prop :=
  exists bundle,
    Fetch fetcher ctx (fetched w) url = (Some bundle, None) /\
    (hasFreshestCRL cert = true -> DeltaCRL bundle <> None) /\
    validate (Some bundle) issuer (called url w) = (Returns None, w') /\
    checkRevocation (Some cert) (Some bundle) signingTime url
    = (Some crlResult, None).

(** Every URL of the list, in order, resolves without error to a status
    other than Revoked; [results] are the results, in order. *)
Inductive visits (ctx : Context) (cert : Certificate)
    (issuer : option Certificate) (fetcher : crl_Fetcher)
    (signingTime : Time)
    : list string -> World -> list ServerResult -> World -> Prop :=
| visits_nil (w : World) :
    visits ctx cert issuer fetcher signingTime [] w [] w
| visits_cons (url : string) (urls : list string) (w w1 w2 : World)
    (crlResult : ServerResult) (results : list ServerResult) :
    resolves ctx cert issuer fetcher signingTime url w crlResult w1 ->
    SRResult crlResult <> ResultRevoked ->
    visits ctx cert issuer fetcher signingTime urls w1 results w2 ->
    visits ctx cert issuer fetcher signingTime (url :: urls) w
      (crlResult :: results) w2.

(** A step of [CertCheckStatus] for one URL, taken in the world [w], fails
    with the error [e], leaving the world [w']: the fetch fails, or the
    certificate has a freshest-CRL extension and the bundle no delta CRL,
    or the bundle does not validate, or [checkRevocation] fails. *)
Inductive fails (ctx : Context) (cert : Certificate)
    (issuer : option Certificate) (fetcher : crl_Fetcher)
    (signingTime : Time) (url : string) (w : World)
    : Error -> World -> Prop :=
| fails_fetch (bundle : option Bundle) (err : Error) :
    Fetch fetcher ctx (fetched w) url = (bundle, Some err) ->
    fails ctx cert issuer fetcher signingTime url w
      (Errorf "failed to download CRL from %s: %w" [ArgStr url; ArgErr err])
      (called url w)
| fails_freshest (bundle : Bundle) :
    Fetch fetcher ctx (fetched w) url = (Some bundle, None) ->
    hasFreshestCRL cert = true ->
    DeltaCRL bundle = None ->
    fails ctx cert issuer fetcher signingTime url w
      (New "freshest CRL from certificate extension is not supported")
      (called url w)
| fails_validate (bundle : Bundle) (err : Error) (w' : World) :
    Fetch fetcher ctx (fetched w) url = (Some bundle, None) ->
    (hasFreshestCRL cert = true -> DeltaCRL bundle <> None) ->
    validate (Some bundle) issuer (called url w) = (Returns (Some err), w') ->
    fails ctx cert issuer fetcher signingTime url w
      (Errorf "failed to validate CRL from %s: %w" [ArgStr url; ArgErr err])
      w'
| fails_resolve (bundle : Bundle) (crlResult : option ServerResult)
    (err : Error) (w' : World) :
    Fetch fetcher ctx (fetched w) url = (Some bundle, None) ->
    (hasFreshestCRL cert = true -> DeltaCRL bundle <> None) ->
    validate (Some bundle) issuer (called url w) = (Returns None, w') ->
    checkRevocation (Some cert) (Some bundle) signingTime url
    = (crlResult, Some err) ->
    fails ctx cert issuer fetcher signingTime url w
      (Errorf "failed to check revocation status from %s: %w"
              [ArgStr url; ArgErr err])
      w'.

End Predicates.

(** * Properties *)

Lemma Equal_eq (a b : ObjectIdentifier) : Equal a b = true <-> a = b.
Proof.
  revert b; induction a as [|x a IH]; intros [|y b]; simpl;
    try (split; (discriminate || reflexivity)).
  rewrite andb_true_iff, Z.eqb_eq, IH.
  split; [intros [-> ->]; reflexivity | intros H; inversion H; auto].
Qed.

Lemma Equal_neq (a b : ObjectIdentifier) : Equal a b = false <-> a <> b.
Proof.
  rewrite <- Equal_eq. destruct (Equal a b); split; congruence.
Qed.

Lemma Cmp_eqb (x y : Z) : (Cmp x y =? 0) = (x =? y).
Proof.
  unfold Cmp. rewrite (Z.eqb_compare x y).
  destruct (x ?= y); reflexivity.
Qed.

Lemma Cmp_leb (x y : Z) : (Cmp x y <=? 0) = (x <=? y).
Proof.
  unfold Cmp, Z.leb at 2. destruct (x ?= y); reflexivity.
Qed.

Lemma Cmp_gtb (x y : Z) : (Cmp x y >? 0) = (y <? x).
Proof.
  unfold Cmp. rewrite Z.ltb_antisym. unfold Z.leb.
  destruct (x ?= y); reflexivity.
Qed.

Section ParseEntryExtensions.

Context {lib : Libraries}.

Lemma trailing_test (rest : list byte) :
  (0 <? Z.of_nat (List.length rest)) = false <-> rest = [].
Proof.
  destruct rest as [|b rest]; simpl; split; try reflexivity; discriminate.
Qed.

Lemma range_rejected (exts : list Extension) (acc : entryExtensions) :
  (exists ext, In ext exts /\ rejected ext) ->
  exists err,
    parseEntryExtensions_range exts acc = (entryExtensions_zero, Some err).
Proof.
  revert acc. induction exts as [|x exts IH]; intros acc [ext [Hin Hbad]].
  - destruct Hin.
  - simpl.
    destruct (Equal (Id x) oidInvalidityDate) eqn:Hid.
    + destruct (UnmarshalGeneralized (Value x)) as [t rest|err] eqn:Hdec;
        [|eauto].
      destruct (0 <? Z.of_nat (List.length rest)) eqn:Hrest; [eauto|].
      apply trailing_test in Hrest; subst rest.
      apply Equal_eq in Hid.
      destruct Hin as [->|Hin]; [|apply IH; eauto].
      destruct Hbad as [[_ [err He]]|[[_ [t' [r' [He Hr]]]]|[Hne _]]];
        congruence.
    + destruct (Critical x) eqn:Hc; [eauto|].
      apply Equal_neq in Hid.
      destruct Hin as [->|Hin]; [|apply IH; eauto].
      destruct Hbad as [[He _]|[[He _]|[_ Hcrit]]]; congruence.
Qed.

Lemma range_app (l1 l2 : list Extension) (acc : entryExtensions) :
  parseEntryExtensions_range (l1 ++ l2) acc =
  match parseEntryExtensions_range l1 acc with
  | (acc', None) => parseEntryExtensions_range l2 acc'
  | (x, Some err) => (x, Some err)
  end.
Proof.
  revert acc. induction l1 as [|x l1 IH]; intros acc; simpl; [reflexivity|].
  destruct (Equal (Id x) oidInvalidityDate).
  - destruct (UnmarshalGeneralized (Value x)) as [t rest|err]; [|reflexivity].
    destruct (0 <? Z.of_nat (List.length rest)); [reflexivity|apply IH].
  - destruct (Critical x); [reflexivity|apply IH].
Qed.

Lemma range_other (exts : list Extension) (acc r : entryExtensions) :
  (forall x, In x exts -> Id x <> oidInvalidityDate) ->
  parseEntryExtensions_range exts acc = (r, None) ->
  r = acc.
Proof.
  revert acc. induction exts as [|x exts IH]; intros acc Hall; simpl.
  - congruence.
  - assert (Hx : Equal (Id x) oidInvalidityDate = false)
      by (apply Equal_neq, Hall; left; reflexivity).
    rewrite Hx. destruct (Critical x); [discriminate|].
    apply IH. intros y Hy. apply Hall. right; exact Hy.
Qed.

Lemma range_ignored (l1 l2 : list Extension) (ext : Extension)
    (acc : entryExtensions) :
  Id ext <> oidInvalidityDate -> Critical ext = false ->
  parseEntryExtensions_range (l1 ++ ext :: l2) acc =
  parseEntryExtensions_range (l1 ++ l2) acc.
Proof.
  intros Hid Hc. rewrite !range_app. simpl.
  apply Equal_neq in Hid. rewrite Hid, Hc. reflexivity.
Qed.

Lemma range_last (l1 l2 : list Extension) (ext : Extension)
    (acc r : entryExtensions) (t : Time) (rest : list byte) :
  Id ext = oidInvalidityDate ->
  (forall x, In x l2 -> Id x <> oidInvalidityDate) ->
  UnmarshalGeneralized (Value ext) = Decoded t rest ->
  parseEntryExtensions_range (l1 ++ ext :: l2) acc = (r, None) ->
  invalidityDate r = t.
Proof.
  intros Hid Hl2 Hdec. rewrite range_app.
  destruct (parseEntryExtensions_range l1 acc) as [acc' [err|]];
    [discriminate|].
  simpl. apply Equal_eq in Hid. rewrite Hid, Hdec.
  destruct (0 <? Z.of_nat (List.length rest)); [discriminate|].
  intros H. apply range_other in H; [|exact Hl2]. subst r. reflexivity.
Qed.

Lemma range_accepts (exts : list Extension) (acc : entryExtensions) :
  (forall x, In x exts -> Id x = oidInvalidityDate ->
     exists t, UnmarshalGeneralized (Value x) = Decoded t []) ->
  (forall x, In x exts -> Id x <> oidInvalidityDate -> Critical x = false) ->
  exists r, parseEntryExtensions_range exts acc = (r, None).
Proof.
  revert acc. induction exts as [|x exts IH]; intros acc Hinv Hoth; simpl.
  - eauto.
  - assert (IH' : forall a, exists r,
               parseEntryExtensions_range exts a = (r, None)).
    { intros a. apply IH; intros y Hy; [apply Hinv|apply Hoth]; right; exact Hy. }
    destruct (Equal (Id x) oidInvalidityDate) eqn:Hid.
    + apply Equal_eq in Hid.
      destruct (Hinv x (or_introl eq_refl) Hid) as [t Ht]. rewrite Ht. simpl.
      apply IH'.
    + apply Equal_neq in Hid.
      rewrite (Hoth x (or_introl eq_refl) Hid). apply IH'.
Qed.

(** C9. [parseEntryExtensions] returns an error when some extension of the
    entry is an invalidity date whose value does not decode as a generalized
    time or leaves trailing bytes, or is a critical extension with another
    identifier; a non-critical extension with another identifier changes
    nothing; and when it succeeds it returns the invalidity date decoded from
    the (last) invalidity-date extension, or the zero time when the entry has
    none. *)
Theorem parseEntryExtensions_spec (entry : RevocationListEntry) :
  ((exists ext, In ext (EntryExtensions entry) /\ rejected ext) ->
   exists err,
     parseEntryExtensions entry = (entryExtensions_zero, Some err))
  /\
  (forall l1 ext l2,
     EntryExtensions entry = l1 ++ ext :: l2 ->
     Id ext <> oidInvalidityDate -> Critical ext = false ->
     parseEntryExtensions entry =
     parseEntryExtensions (withExtensions entry (l1 ++ l2)))
  /\
  (forall extensions,
     parseEntryExtensions entry = (extensions, None) ->
     ((forall x, In x (EntryExtensions entry) -> Id x <> oidInvalidityDate) ->
      invalidityDate extensions = 0)
     /\
     (forall l1 ext l2 t rest,
        EntryExtensions entry = l1 ++ ext :: l2 ->
        Id ext = oidInvalidityDate ->
        (forall x, In x l2 -> Id x <> oidInvalidityDate) ->
        UnmarshalGeneralized (Value ext) = Decoded t rest ->
        invalidityDate extensions = t)).
Proof.
  unfold parseEntryExtensions. split; [|split].
  - apply range_rejected.
  - intros l1 ext l2 Hexts Hid Hc. simpl. rewrite Hexts.
    apply range_ignored; assumption.
  - intros extensions H. split.
    + intros Hall. apply range_other in H; [|exact Hall].
      subst. reflexivity.
    + intros l1 ext l2 t rest Hexts Hid Hl2 Hdec. rewrite Hexts in H.
      eapply range_last; eassumption.
Qed.

(** C10, as amended. When an entry carries more than one invalidity-date
    extension, each of them decodes with no trailing bytes, and no extension
    with another identifier is critical, [parseEntryExtensions] succeeds
    and returns the date of the last invalidity-date extension. *)
Theorem parseEntryExtensions_last_wins (entry : RevocationListEntry)
    (l1 l2 : list Extension) (ext : Extension) (t : Time) :
  EntryExtensions entry = l1 ++ ext :: l2 ->
  Id ext = oidInvalidityDate ->
  (forall x, In x l2 -> Id x <> oidInvalidityDate) ->
  (exists x, In x l1 /\ Id x = oidInvalidityDate) ->
  (forall x, In x (EntryExtensions entry) -> Id x = oidInvalidityDate ->
     exists t', UnmarshalGeneralized (Value x) = Decoded t' []) ->
  UnmarshalGeneralized (Value ext) = Decoded t [] ->
  (forall x, In x (EntryExtensions entry) -> Id x <> oidInvalidityDate ->
     Critical x = false) ->
  parseEntryExtensions entry = ({| invalidityDate := t |}, None).
Proof.
  intros Hexts Hid Hl2 _ Hinv Hdec Hoth.
  destruct (range_accepts (EntryExtensions entry) entryExtensions_zero
              Hinv Hoth) as [r Hr].
  unfold parseEntryExtensions. rewrite Hr.
  rewrite Hexts in Hr.
  pose proof (range_last _ _ _ _ _ _ _ Hid Hl2 Hdec Hr) as Ht.
  destruct r as [d]. simpl in Ht. subst d. reflexivity.
Qed.

End ParseEntryExtensions.

Section CheckRevocation.

Context {lib : Libraries}.

Lemma walk_app (cert : Certificate) (signingTime : Time) (crlURL : string)
    (l1 l2 : list RevocationListEntry) (acc : option RevocationListEntry) :
  checkRevocation_range cert signingTime crlURL (l1 ++ l2) acc =
  match checkRevocation_range cert signingTime crlURL l1 acc with
  | Return r => Return r
  | Falls acc' => checkRevocation_range cert signingTime crlURL l2 acc'
  end.
Proof.
  revert acc. induction l1 as [|e l1 IH]; intros acc; simpl; [reflexivity|].
  destruct (Cmp (SerialNumber e) (CertSerialNumber cert) =? 0); [|apply IH].
  destruct (parseEntryExtensions e) as [x [err|]]; [reflexivity|].
  destruct (signedBeforeInvalidity signingTime x); [reflexivity|].
  destruct ((ReasonCode e =? reasonCodeCertificateHold)
            || (ReasonCode e =? reasonCodeRemoveFromCRL));
    [apply IH|reflexivity].
Qed.

Lemma temporary_test (e : RevocationListEntry) :
  (ReasonCode e =? reasonCodeCertificateHold)
  || (ReasonCode e =? reasonCodeRemoveFromCRL) = true <-> temporary e.
Proof.
  unfold temporary. rewrite orb_true_iff, !Z.eqb_eq. reflexivity.
Qed.

Lemma walk_skip (cert : Certificate) (signingTime : Time) (crlURL : string)
    (e : RevocationListEntry) (l : list RevocationListEntry)
    (acc : option RevocationListEntry) :
  SerialNumber e <> CertSerialNumber cert ->
  checkRevocation_range cert signingTime crlURL (e :: l) acc =
  checkRevocation_range cert signingTime crlURL l acc.
Proof.
  intros Hne. simpl. rewrite Cmp_eqb.
  apply Z.eqb_neq in Hne. rewrite Hne. reflexivity.
Qed.

Lemma walk_temporary (cert : Certificate) (signingTime : Time)
    (crlURL : string) (e : RevocationListEntry)
    (l : list RevocationListEntry) (acc : option RevocationListEntry) :
  SerialNumber e = CertSerialNumber cert ->
  snd (parseEntryExtensions e) = None ->
  shortCircuits signingTime e = false ->
  temporary e ->
  checkRevocation_range cert signingTime crlURL (e :: l) acc =
  checkRevocation_range cert signingTime crlURL l (later acc e).
Proof.
  intros Hs Hp Hsc Ht. simpl. rewrite Cmp_eqb.
  apply Z.eqb_eq in Hs. rewrite Hs.
  unfold shortCircuits in Hsc.
  destruct (parseEntryExtensions e) as [x [err|]]; [discriminate|].
  rewrite Hsc. apply temporary_test in Ht. rewrite Ht. reflexivity.
Qed.

Lemma tracks_later (seen : list RevocationListEntry)
    (acc : option RevocationListEntry) (e : RevocationListEntry) :
  tracks seen acc -> tracks (seen ++ [e]) (later acc e).
Proof.
  destruct acc as [a|]; simpl.
  - intros (before & after & -> & Hb & Ha).
    unfold Before.
    destruct (RevocationTime a <? RevocationTime e) eqn:Hlt; simpl.
    + apply Z.ltb_lt in Hlt.
      exists (before ++ a :: after), []. split; [reflexivity|].
      split; [|intros x []].
      intros x Hx. apply in_app_or in Hx.
      destruct Hx as [Hx|[<-|Hx]];
        [specialize (Hb x Hx)|exact Hlt|specialize (Ha x Hx)]; lia.
    + apply Z.ltb_ge in Hlt.
      exists before, (after ++ [e]). split.
      * rewrite <- app_assoc. reflexivity.
      * split; [exact Hb|].
        intros x Hx. apply in_app_or in Hx.
        destruct Hx as [Hx|[<-|[]]]; [apply Ha; exact Hx|exact Hlt].
  - intros ->. exists [], []. split; [reflexivity|].
    split; intros x [].
Qed.

Lemma walk_tracks (cert : Certificate) (signingTime : Time)
    (crlURL : string) (l seen : list RevocationListEntry)
    (acc : option RevocationListEntry) :
  (forall e, In e l -> SerialNumber e = CertSerialNumber cert ->
     temporary e /\ snd (parseEntryExtensions e) = None /\
     shortCircuits signingTime e = false) ->
  tracks seen acc ->
  exists latest,
    checkRevocation_range cert signingTime crlURL l acc = Falls latest /\
    tracks (seen ++ matching cert l) latest.
Proof.
  revert seen acc. induction l as [|e l IH]; intros seen acc Hall Hacc.
  - exists acc. simpl. rewrite app_nil_r. auto.
  - assert (Hall' : forall x, In x l ->
              SerialNumber x = CertSerialNumber cert ->
              temporary x /\ snd (parseEntryExtensions x) = None /\
              shortCircuits signingTime x = false)
      by (intros x Hx; apply Hall; right; exact Hx).
    unfold matching. cbn [filter]. fold (matching cert l).
    destruct (SerialNumber e =? CertSerialNumber cert) eqn:Hs.
    + apply Z.eqb_eq in Hs.
      destruct (Hall e (or_introl eq_refl) Hs) as (Ht & Hp & Hsc).
      rewrite walk_temporary by assumption.
      destruct (IH (seen ++ [e]) (later acc e) Hall' (tracks_later _ _ _ Hacc))
        as (latest & Hw & Htr).
      exists latest. split; [exact Hw|].
      rewrite <- app_assoc in Htr. exact Htr.
    + apply Z.eqb_neq in Hs. rewrite walk_skip by assumption.
      apply IH; assumption.
Qed.

Lemma checkRevocation_walk (cert : Certificate) (base : RevocationList)
    (delta : option RevocationList) (signingTime : Time) (crlURL : string) :
  checkRevocation (Some cert) (Some (mkBundle (Some base) delta))
    signingTime crlURL =
  match checkRevocation_range cert signingTime crlURL
          (revocationListIter base delta) None with
  | Return r => r
  | Falls (Some latest) =>
      if ReasonCode latest =? reasonCodeCertificateHold
      then (Some (serverResult ResultRevoked crlURL), None)
      else (Some (serverResult ResultOK crlURL), None)
  | Falls None => (Some (serverResult ResultOK crlURL), None)
  end.
Proof. reflexivity. Qed.

(** What it takes to reach the entry after [pre]: every entry of [pre]
    with the serial number of the certificate parses, does not stop the
    walk with OK, and is a certificateHold or a removeFromCRL. *)
Lemma reaches_iff (cert : Certificate) (signingTime : Time)
    (crlURL : string) (pre : list RevocationListEntry) :
  (exists latest, reaches cert signingTime crlURL pre latest) <->
  (forall e, In e pre -> SerialNumber e = CertSerialNumber cert ->
     temporary e /\ snd (parseEntryExtensions e) = None /\
     shortCircuits signingTime e = false).
Proof.
  unfold reaches. split.
  - generalize (@None RevocationListEntry).
    induction pre as [|x pre IH]; intros acc [latest Hw] e Hin Hs;
      [destruct Hin|].
    simpl in Hw. rewrite Cmp_eqb in Hw.
    destruct (SerialNumber x =? CertSerialNumber cert) eqn:Hx.
    + unfold shortCircuits.
      destruct (parseEntryExtensions x) as [ext [err|]] eqn:Hp;
        [discriminate|].
      destruct (signedBeforeInvalidity signingTime ext) eqn:Hsc;
        [discriminate|].
      destruct ((ReasonCode x =? reasonCodeCertificateHold)
                || (ReasonCode x =? reasonCodeRemoveFromCRL)) eqn:Ht;
        [|discriminate].
      destruct Hin as [<-|Hin].
      * unfold shortCircuits. rewrite Hp. simpl.
        apply temporary_test in Ht. auto.
      * eapply IH; eauto.
    + destruct Hin as [<-|Hin].
      * apply Z.eqb_neq in Hx. contradiction.
      * eapply IH; eauto.
  - intros Hall.
    destruct (walk_tracks cert signingTime crlURL pre [] None Hall eq_refl)
      as (latest & Hw & _).
    exists latest. exact Hw.
Qed.

(** C1. With a signing time that is set: when the walk over the merged
    entries (base entries, then delta entries) reaches an entry with the
    serial number of the certificate that carries a non-zero invalidity date,
    and the signing time is strictly before that date, [checkRevocation]
    returns OK, whatever the reason code of the entry and whatever entries
    follow it. *)
Theorem checkRevocation_signed_before_invalidity
    (cert : Certificate) (base : RevocationList)
    (delta : option RevocationList) (signingTime : Time) (crlURL : string)
    (pre post : list RevocationListEntry) (e : RevocationListEntry)
    (latest : option RevocationListEntry) (extensions : entryExtensions) :
  signingTime <> 0 ->
  revocationListIter base delta = pre ++ e :: post ->
  reaches cert signingTime crlURL pre latest ->
  SerialNumber e = CertSerialNumber cert ->
  parseEntryExtensions e = (extensions, None) ->
  invalidityDate extensions <> 0 ->
  signingTime < invalidityDate extensions ->
  checkRevocation (Some cert) (Some (mkBundle (Some base) delta))
    signingTime crlURL
  = (Some (serverResult ResultOK crlURL), None).
Proof.
  intros Hst Hsplit Hreach Hs Hp Hd Hlt.
  rewrite checkRevocation_walk, Hsplit, walk_app, Hreach.
  simpl. rewrite Cmp_eqb. apply Z.eqb_eq in Hs. rewrite Hs, Hp.
  unfold signedBeforeInvalidity, IsZero, Before.
  apply Z.eqb_neq in Hst, Hd. apply Z.ltb_lt in Hlt.
  rewrite Hst, Hd, Hlt. reflexivity.
Qed.

(** C2, as amended. When every entry of the merged sequence with the serial
    number of the certificate is a certificateHold or a removeFromCRL, has
    extensions that parse without error, and does not trigger the
    invalidity-date short-circuit, the walk ends tracking the first of the
    entries with the latest revocation time (an entry replaces the tracked
    one only when it is strictly later); [checkRevocation] returns Revoked
    exactly when that entry is a certificateHold, and OK when there is no
    such entry or it is a removeFromCRL. *)
Theorem checkRevocation_temporary
    (cert : Certificate) (base : RevocationList)
    (delta : option RevocationList) (signingTime : Time) (crlURL : string) :
  (forall e, In e (revocationListIter base delta) ->
     SerialNumber e = CertSerialNumber cert ->
     temporary e /\ snd (parseEntryExtensions e) = None /\
     shortCircuits signingTime e = false) ->
  exists latest status,
    reaches cert signingTime crlURL (revocationListIter base delta) latest /\
    tracks (matching cert (revocationListIter base delta)) latest /\
    checkRevocation (Some cert) (Some (mkBundle (Some base) delta))
      signingTime crlURL
    = (Some (serverResult status crlURL), None) /\
    (status = ResultRevoked <->
     exists t, latest = Some t /\ ReasonCode t = reasonCodeCertificateHold) /\
    (status = ResultOK <->
     latest = None \/
     exists t, latest = Some t /\ ReasonCode t = reasonCodeRemoveFromCRL).
Proof.
  intros Hall.
  destruct (walk_tracks cert signingTime crlURL _ [] None Hall eq_refl)
    as (latest & Hw & Htr).
  simpl in Htr.
  assert (Htemp : forall t, latest = Some t -> temporary t).
  { intros t ->. destruct Htr as (before & after & Hm & _).
    assert (Hin : In t (matching cert (revocationListIter base delta)))
      by (rewrite Hm; apply in_elt).
    apply filter_In in Hin. destruct Hin as [Hin Hs].
    apply Z.eqb_eq in Hs. apply (Hall t Hin Hs). }
  exists latest.
  exists (match latest with
          | Some t => if ReasonCode t =? reasonCodeCertificateHold
                      then ResultRevoked else ResultOK
          | None => ResultOK
          end).
  split; [exact Hw|]. split; [exact Htr|].
  split; [rewrite checkRevocation_walk, Hw; destruct latest as [t|];
          [destruct (ReasonCode t =? _)|]; reflexivity|].
  destruct latest as [t|].
  - destruct (Htemp t eq_refl) as [Hh|Hr].
    + rewrite Hh. simpl. split; split; try discriminate.
      * intros _. exists t. auto.
      * reflexivity.
      * intros [Hn|[t' [Heq Hr]]]; [discriminate|].
        inversion Heq; subst t'. rewrite Hh in Hr. discriminate.
    + rewrite Hr. simpl. split; split; try discriminate.
      * intros [t' [Heq Hh]].
        inversion Heq; subst t'. rewrite Hr in Hh. discriminate.
      * intros _. right. exists t. auto.
      * reflexivity.
  - split; split; try discriminate.
    + intros [t [Heq _]]. discriminate.
    + intros _. left. reflexivity.
    + reflexivity.
Qed.

(** C3, as amended. When the walk over the merged entries reaches an entry
    with the serial number of the certificate whose reason code is neither
    certificateHold nor removeFromCRL, whose extensions parse without error,
    and which does not trigger the invalidity-date short-circuit,
    [checkRevocation] returns Revoked, whatever entries follow it. *)
Theorem checkRevocation_permanent
    (cert : Certificate) (base : RevocationList)
    (delta : option RevocationList) (signingTime : Time) (crlURL : string)
    (pre post : list RevocationListEntry) (e : RevocationListEntry)
    (latest : option RevocationListEntry) :
  revocationListIter base delta = pre ++ e :: post ->
  reaches cert signingTime crlURL pre latest ->
  SerialNumber e = CertSerialNumber cert ->
  ReasonCode e <> reasonCodeCertificateHold ->
  ReasonCode e <> reasonCodeRemoveFromCRL ->
  snd (parseEntryExtensions e) = None ->
  shortCircuits signingTime e = false ->
  checkRevocation (Some cert) (Some (mkBundle (Some base) delta))
    signingTime crlURL
  = (Some (serverResult ResultRevoked crlURL), None).
Proof.
  intros Hsplit Hreach Hs Hh Hr Hp Hsc.
  rewrite checkRevocation_walk, Hsplit, walk_app, Hreach.
  simpl. rewrite Cmp_eqb. apply Z.eqb_eq in Hs. rewrite Hs.
  unfold shortCircuits in Hsc.
  destruct (parseEntryExtensions e) as [x [err|]]; [discriminate|].
  rewrite Hsc.
  apply Z.eqb_neq in Hh, Hr. rewrite Hh, Hr. reflexivity.
Qed.

End CheckRevocation.

Section Validate.

Context {lib : Libraries}.

Lemma validateCRL_signed (crl : RevocationList)
    (issuer : option Certificate) (w : World) :
  CheckSignatureFrom (Some crl) issuer = Returns None ->
  validateCRL (Some crl) issuer w =
  if IsZero (NextUpdate crl) then
    (Returns (Some (New "CRL NextUpdate is not set")), w)
  else if After (clock w 0%nat) (NextUpdate crl) then
    (Returns (Some (Errorf
       "expired CRL. Current time %v is after CRL NextUpdate %v"
       [ArgTime (clock w 0%nat); ArgTime (NextUpdate crl)])), tick w)
  else (Returns (validateCRL_range (Extensions crl)), tick w).
Proof.
  intros Hsig. unfold validateCRL. rewrite Hsig.
  destruct (IsZero (NextUpdate crl)); [reflexivity|].
  unfold bind, time_Now, ret.
  destruct (After (clock w 0%nat) (NextUpdate crl)); reflexivity.
Qed.

Lemma validateCRL_fresh (crl : RevocationList)
    (issuer : option Certificate) (w : World) :
  CheckSignatureFrom (Some crl) issuer = Returns None ->
  NextUpdate crl <> 0 ->
  clock w 0%nat <= NextUpdate crl ->
  validateCRL (Some crl) issuer w =
  (Returns (validateCRL_range (Extensions crl)), tick w).
Proof.
  intros Hsig Hset Hfresh. rewrite (validateCRL_signed crl issuer w Hsig).
  unfold IsZero, After.
  apply Z.eqb_neq in Hset. apply Z.ltb_ge in Hfresh.
  rewrite Hset, Hfresh. reflexivity.
Qed.

(** C7, as amended. For a CRL whose signature verifies against the issuer:
    an unset next-update is an error; a next-update strictly before the
    current time is an expired CRL; a next-update at or after the current
    time passes on to the checks of the extensions; so validation succeeds
    only if the next-update is set and not before the current time. *)
Theorem validateCRL_next_update (crl : RevocationList)
    (issuer : option Certificate) (w : World) :
  CheckSignatureFrom (Some crl) issuer = Returns None ->
  (NextUpdate crl = 0 ->
   validateCRL (Some crl) issuer w =
   (Returns (Some (New "CRL NextUpdate is not set")), w))
  /\
  (NextUpdate crl <> 0 -> NextUpdate crl < clock w 0%nat ->
   validateCRL (Some crl) issuer w =
   (Returns (Some (Errorf
      "expired CRL. Current time %v is after CRL NextUpdate %v"
      [ArgTime (clock w 0%nat); ArgTime (NextUpdate crl)])), tick w))
  /\
  (NextUpdate crl <> 0 -> clock w 0%nat <= NextUpdate crl ->
   validateCRL (Some crl) issuer w =
   (Returns (validateCRL_range (Extensions crl)), tick w))
  /\
  (forall w', validateCRL (Some crl) issuer w = (Returns None, w') ->
   NextUpdate crl <> 0 /\ clock w 0%nat <= NextUpdate crl).
Proof.
  intros Hsig. rewrite (validateCRL_signed crl issuer w Hsig).
  unfold IsZero, After.
  destruct (NextUpdate crl =? 0) eqn:Hz;
    [apply Z.eqb_eq in Hz|apply Z.eqb_neq in Hz];
    (destruct (NextUpdate crl <? clock w 0%nat) eqn:Hlt;
     [apply Z.ltb_lt in Hlt|apply Z.ltb_ge in Hlt]);
    repeat split; intros; try reflexivity; try congruence; try lia;
    try discriminate.
Qed.

Lemma validateCRL_range_accepts (exts : list Extension) :
  validateCRL_range exts = None <-> (forall ext, In ext exts -> accepted ext).
Proof.
  unfold accepted. induction exts as [|x exts IH]; simpl.
  - split; [intros _ ext []|reflexivity].
  - destruct (Equal (Id x) oidIssuingDistributionPoint) eqn:Hidp.
    { apply Equal_eq in Hidp. rewrite IH. split.
      - intros H ext [<-|Hin]; auto.
      - intros H ext Hin. apply H. right; exact Hin. }
    destruct (Equal (Id x) oidDeltaCRLIndicator) eqn:Hdci.
    { apply Equal_eq in Hdci. rewrite IH. split.
      - intros H ext [<-|Hin]; auto.
      - intros H ext Hin. apply H. right; exact Hin. }
    apply Equal_neq in Hidp, Hdci.
    destruct (Critical x) eqn:Hc.
    + split; [discriminate|].
      intros H. destruct (H x (or_introl eq_refl)) as [?|[?|?]]; congruence.
    + rewrite IH. split.
      * intros H ext [<-|Hin]; auto.
      * intros H ext Hin. apply H. right; exact Hin.
Qed.

Lemma validateCRL_range_rejects (pre post : list Extension)
    (ext : Extension) :
  (forall x, In x pre -> accepted x) ->
  Id ext <> oidIssuingDistributionPoint ->
  Id ext <> oidDeltaCRLIndicator ->
  Critical ext = true ->
  validateCRL_range (pre ++ ext :: post) =
  Some (Errorf "unsupported critical extension found in CRL: %v"
               [ArgOID (Id ext)]).
Proof.
  intros Hpre Hidp Hdci Hc.
  induction pre as [|x pre IH]; simpl.
  - apply Equal_neq in Hidp, Hdci. rewrite Hidp, Hdci, Hc. reflexivity.
  - assert (IH' := IH (fun y Hy => Hpre y (or_intror Hy))).
    destruct (Equal (Id x) oidIssuingDistributionPoint) eqn:Hxi; [exact IH'|].
    destruct (Equal (Id x) oidDeltaCRLIndicator) eqn:Hxd; [exact IH'|].
    apply Equal_neq in Hxi, Hxd.
    destruct (Hpre x (or_introl eq_refl)) as [?|[?|Hx]]; try contradiction.
    rewrite Hx. exact IH'.
Qed.

Lemma validateCRL_range_values (exts exts' : list Extension) :
  map (fun e => (Id e, Critical e)) exts =
  map (fun e => (Id e, Critical e)) exts' ->
  validateCRL_range exts = validateCRL_range exts'.
Proof.
  revert exts'. induction exts as [|x exts IH]; intros [|y exts'] H;
    try discriminate; [reflexivity|].
  simpl in H. inversion H as [[Hid Hc Hrest]].
  simpl. rewrite Hid, Hc, (IH _ Hrest). reflexivity.
Qed.

(** C8. For a CRL that passes the signature and expiry checks, per-CRL
    validation succeeds exactly when every extension is an issuing
    distribution point, a delta CRL indicator (either of them critical or
    not) or is not critical; the first other extension marked critical
    makes it fail with the unsupported-critical-extension error; and the
    outcome does not depend on the values of the extensions. *)
Theorem validateCRL_extensions (crl : RevocationList)
    (issuer : option Certificate) (w : World) :
  CheckSignatureFrom (Some crl) issuer = Returns None ->
  NextUpdate crl <> 0 ->
  clock w 0%nat <= NextUpdate crl ->
  (validateCRL (Some crl) issuer w = (Returns None, tick w) <->
   forall ext, In ext (Extensions crl) -> accepted ext)
  /\
  (forall pre ext post,
     Extensions crl = pre ++ ext :: post ->
     (forall x, In x pre -> accepted x) ->
     Id ext <> oidIssuingDistributionPoint ->
     Id ext <> oidDeltaCRLIndicator ->
     Critical ext = true ->
     validateCRL (Some crl) issuer w =
     (Returns (Some (Errorf "unsupported critical extension found in CRL: %v"
                            [ArgOID (Id ext)])), tick w))
  /\
  (forall crl' : RevocationList,
     CheckSignatureFrom (Some crl') issuer = Returns None ->
     NextUpdate crl' = NextUpdate crl ->
     map (fun e => (Id e, Critical e)) (Extensions crl') =
     map (fun e => (Id e, Critical e)) (Extensions crl) ->
     validateCRL (Some crl') issuer w = validateCRL (Some crl) issuer w).
Proof.
  intros Hsig Hset Hfresh.
  pose proof (validateCRL_fresh crl issuer w Hsig Hset Hfresh) as Hok.
  split; [|split].
  - rewrite Hok, <- validateCRL_range_accepts.
    split; [congruence|intros ->; reflexivity].
  - intros pre ext post Hexts Hpre Hidp Hdci Hc.
    rewrite Hok, Hexts, validateCRL_range_rejects by assumption.
    reflexivity.
  - intros crl' Hsig' Hnext Hmap.
    rewrite <- Hnext in Hset, Hfresh.
    rewrite Hok, (validateCRL_fresh crl' issuer w Hsig' Hset Hfresh).
    rewrite (validateCRL_range_values _ _ Hmap). reflexivity.
Qed.

Ltac delta_cases :=
  repeat split; intros;
  repeat match goal with
         | H : _ /\ _ |- _ => destruct H
         | H : exists _, _ |- _ => destruct H
         | H : Some _ = Some _ |- _ => inversion H; subst; clear H
         | H1 : ?x = Some _, H2 : ?x = Some _ |- _ => rewrite H1 in H2
         end;
  try lia; try discriminate; try congruence;
  try (unfold errDeltaNumber, errIndicatorNotFound, errIndicatorParse,
         errIndicatorTooLarge; discriminate).

Lemma CmpInt_some (x y : Z) : CmpInt (Some x) (Some y) = Returns (Cmp x y).
Proof. reflexivity. Qed.

(** What [validate] does with a bundle once both of its CRLs have passed
    [validateCRL]: the checks of lines 216-232. *)
Lemma validate_validated (base delta : RevocationList)
    (issuer : option Certificate) (w w1 w2 : World) :
  validateCRL (Some base) issuer w = (Returns None, w1) ->
  validateCRL (Some delta) issuer w1 = (Returns None, w2) ->
  validate (Some (mkBundle (Some base) (Some delta))) issuer w =
  match CmpInt (Number delta) (Number base) with
  | Panics => (Panics, w2)
  | Returns cmp =>
      if cmp <=? 0 then
        (Returns (Some (errDeltaNumber (Number delta) (Number base))), w2)
      else
        match FindExtensionByOID (Extensions delta) oidDeltaCRLIndicator with
        | None => (Returns (Some errIndicatorNotFound), w2)
        | Some ext =>
            match ReadASN1Integer (Value ext) with
            | None => (Returns (Some errIndicatorParse), w2)
            | Some (m, _) =>
                match CmpInt (Some m) (Number base) with
                | Panics => (Panics, w2)
                | Returns cmp' =>
                    if cmp' >? 0 then
                      (Returns (Some (errIndicatorTooLarge m (Number base))),
                       w2)
                    else (Returns None, w2)
                end
            end
        end
  end.
Proof.
  intros Hbase Hdelta. unfold validate, bind.
  cbn [BaseCRL DeltaCRL]. rewrite Hbase, Hdelta. unfold lift.
  destruct (CmpInt (Number delta) (Number base)) as [cmp|]; [|reflexivity].
  destruct (cmp <=? 0); [reflexivity|].
  destruct (FindExtensionByOID (Extensions delta) oidDeltaCRLIndicator)
    as [ext|]; [|reflexivity].
  destruct (ReadASN1Integer (Value ext)) as [[m rest]|]; [|reflexivity].
  destruct (CmpInt (Some m) (Number base)) as [cmp'|]; [|reflexivity].
  destruct (cmp' >? 0); reflexivity.
Qed.

(** C4, the defect. For a bundle whose base and delta CRL both pass
    per-CRL validation and exactly one of which has no CRL number (a nil
    [Number]), [validate] neither succeeds nor returns an error: the
    comparison of line 216 dereferences the nil number and panics. *)
Theorem validate_delta_nil_number (base delta : RevocationList)
    (issuer : option Certificate) (w w1 w2 : World) :
  validateCRL (Some base) issuer w = (Returns None, w1) ->
  validateCRL (Some delta) issuer w1 = (Returns None, w2) ->
  (Number base = None /\ Number delta <> None) \/
  (Number base <> None /\ Number delta = None) ->
  validate (Some (mkBundle (Some base) (Some delta))) issuer w
  = (Panics, w2).
Proof.
  intros Hbase Hdelta Hnil.
  rewrite (validate_validated base delta issuer w w1 w2 Hbase Hdelta).
  destruct (Number base) as [nb|], (Number delta) as [nd|];
    try reflexivity; destruct Hnil as [[H1 H2]|[H1 H2]]; congruence.
Qed.

(** X22. For a bundle whose base and delta CRL both pass per-CRL validation
    and both carry a CRL number, [validate] succeeds exactly when the
    number of the delta CRL is strictly greater than that of the base CRL,
    the delta CRL has a delta-CRL-indicator extension whose value reads as
    an ASN.1 integer, and that integer is at most the number of the base
    CRL. Each violation gives an error of its own, and the four errors
    differ from each other. *)
Theorem validate_delta (base delta : RevocationList)
    (issuer : option Certificate) (w w1 w2 : World)
    (baseNumber deltaNumber : Z) :
  validateCRL (Some base) issuer w = (Returns None, w1) ->
  validateCRL (Some delta) issuer w1 = (Returns None, w2) ->
  Number base = Some baseNumber ->
  Number delta = Some deltaNumber ->
  let result :=
    validate (Some (mkBundle (Some base) (Some delta))) issuer w in
  let indicator :=
    FindExtensionByOID (Extensions delta) oidDeltaCRLIndicator in
  (result = (Returns None, w2) <->
   baseNumber < deltaNumber /\
   exists ext minimumBaseCRLNumber rest,
     indicator = Some ext /\
     ReadASN1Integer (Value ext) = Some (minimumBaseCRLNumber, rest) /\
     minimumBaseCRLNumber <= baseNumber)
  /\
  (deltaNumber <= baseNumber ->
   result =
   (Returns (Some (errDeltaNumber (Some deltaNumber) (Some baseNumber))),
    w2))
  /\
  (baseNumber < deltaNumber -> indicator = None ->
   result = (Returns (Some errIndicatorNotFound), w2))
  /\
  (forall ext,
     baseNumber < deltaNumber -> indicator = Some ext ->
     ReadASN1Integer (Value ext) = None ->
     result = (Returns (Some errIndicatorParse), w2))
  /\
  (forall ext minimumBaseCRLNumber rest,
     baseNumber < deltaNumber -> indicator = Some ext ->
     ReadASN1Integer (Value ext) = Some (minimumBaseCRLNumber, rest) ->
     baseNumber < minimumBaseCRLNumber ->
     result =
     (Returns (Some (errIndicatorTooLarge minimumBaseCRLNumber
                                          (Some baseNumber))), w2))
  /\
  (forall d b m b',
     errDeltaNumber d b <> errIndicatorNotFound /\
     errDeltaNumber d b <> errIndicatorParse /\
     errDeltaNumber d b <> errIndicatorTooLarge m b' /\
     errIndicatorNotFound <> errIndicatorParse /\
     errIndicatorNotFound <> errIndicatorTooLarge m b' /\
     errIndicatorParse <> errIndicatorTooLarge m b').
Proof.
  intros Hbase Hdelta Hnb Hnd result indicator.
  subst result.
  rewrite (validate_validated base delta issuer w w1 w2 Hbase Hdelta).
  rewrite Hnb, Hnd, CmpInt_some, Cmp_leb. fold indicator.
  destruct (deltaNumber <=? baseNumber) eqn:Hcmp;
    [apply Z.leb_le in Hcmp|apply Z.leb_gt in Hcmp].
  - delta_cases.
  - destruct indicator as [ext|] eqn:Hind.
    + destruct (ReadASN1Integer (Value ext)) as [[m rest]|] eqn:Hread.
      * rewrite CmpInt_some, Cmp_gtb.
        destruct (baseNumber <? m) eqn:Hm;
          [apply Z.ltb_lt in Hm|apply Z.ltb_ge in Hm].
        -- delta_cases.
        -- delta_cases. exists ext, m, rest. auto.
      * delta_cases.
    + delta_cases.
Qed.

End Validate.

Section CertCheckStatus.

Context {lib : Libraries}.

Variables (ctx : Context) (cert : Certificate) (issuer : option Certificate)
  (fetcher : crl_Fetcher) (signingTime : Time).

Lemma validateCRL_fetched (crl : option RevocationList) (w w' : World)
    (o : outcome (option Error)) :
  validateCRL crl issuer w = (o, w') -> fetched w' = fetched w.
Proof.
  unfold validateCRL, bind, time_Now, ret, panic.
  destruct (CheckSignatureFrom crl issuer) as [[err|]|].
  - destruct issuer; intros H; inversion H; reflexivity.
  - destruct crl as [c|]; [|intros H; inversion H; reflexivity].
    destruct (IsZero (NextUpdate c)); [intros H; inversion H; reflexivity|].
    destruct (After (clock w 0%nat) (NextUpdate c));
      intros H; inversion H; reflexivity.
  - intros H; inversion H; reflexivity.
Qed.

Lemma validate_fetched (bundle : option Bundle) (w w' : World)
    (o : outcome (option Error)) :
  validate bundle issuer w = (o, w') -> fetched w' = fetched w.
Proof.
  unfold validate. destruct bundle as [b|];
    [|unfold panic; intros H; inversion H; reflexivity].
  unfold bind at 1.
  destruct (validateCRL (BaseCRL b) issuer w) as [[[e|]|] w1] eqn:H1;
    apply validateCRL_fetched in H1;
    try (unfold ret; intros H; inversion H; subst; exact H1).
  destruct (DeltaCRL b) as [d|];
    [|unfold ret; intros H; inversion H; subst; exact H1].
  unfold bind.
  destruct (validateCRL (Some d) issuer w1) as [[[e|]|] w2] eqn:H2;
    apply validateCRL_fetched in H2;
    try (unfold ret; intros H; inversion H; subst; congruence).
  destruct (BaseCRL b) as [base|];
    [|unfold panic; intros H; inversion H; subst; congruence].
  unfold lift.
  destruct (CmpInt (Number d) (Number base)) as [cmp|];
    [|intros H; inversion H; subst; congruence].
  destruct (cmp <=? 0);
    [unfold ret; intros H; inversion H; subst; congruence|].
  destruct (FindExtensionByOID (Extensions d) oidDeltaCRLIndicator)
    as [ext|]; [|unfold ret; intros H; inversion H; subst; congruence].
  destruct (ReadASN1Integer (Value ext)) as [[m rest]|];
    [|unfold ret; intros H; inversion H; subst; congruence].
  destruct (CmpInt (Some m) (Number base)) as [cmp'|];
    [|intros H; inversion H; subst; congruence].
  destruct (cmp' >? 0);
    unfold ret; intros H; inversion H; subst; congruence.
Qed.

Lemma resolves_fetched (url : string) (w w' : World) (r : ServerResult) :
  resolves ctx cert issuer fetcher signingTime url w r w' ->
  fetched w' = fetched w ++ [url].
Proof.
  intros (bundle & _ & _ & Hval & _).
  apply validate_fetched in Hval. exact Hval.
Qed.

Lemma visits_fetched (urls : list string) (w w' : World)
    (results : list ServerResult) :
  visits ctx cert issuer fetcher signingTime urls w results w' ->
  fetched w' = fetched w ++ urls.
Proof.
  induction 1 as [w|url urls w w1 w2 r rs Hres Hnr Hvis IH].
  - rewrite app_nil_r. reflexivity.
  - rewrite IH, (resolves_fetched _ _ _ _ Hres), <- app_assoc. reflexivity.
Qed.

Lemma fails_fetched (url : string) (w w' : World) (e : Error) :
  fails ctx cert issuer fetcher signingTime url w e w' ->
  fetched w' = fetched w ++ [url].
Proof.
  intros [bundle err Hf|bundle Hf Hfr Hd|bundle err w1 Hf Hfr Hval
         |bundle r err w1 Hf Hfr Hval Hres];
    try reflexivity; apply validate_fetched in Hval; exact Hval.
Qed.

Lemma delta_test (bundle : Bundle) (w : World) :
  (hasFreshestCRL cert = true -> DeltaCRL bundle <> None) ->
  (if hasFreshestCRL cert
   then ret (match DeltaCRL bundle with None => true | Some _ => false end)
   else ret false) w = (Returns false, w).
Proof.
  intros H. destruct (hasFreshestCRL cert); [|reflexivity].
  destruct (DeltaCRL bundle); [reflexivity|].
  exfalso. apply H; reflexivity.
Qed.

Lemma range_resolves (url : string) (urls : list string) (vars : loopVars)
    (w w' : World) (r : ServerResult) :
  resolves ctx cert issuer fetcher signingTime url w r w' ->
  CertCheckStatus_range ctx cert issuer fetcher signingTime
    (hasFreshestCRL cert) (url :: urls) vars w =
  match SRResult r with
  | ResultRevoked =>
      (Returns (Return {| CRResult := ResultRevoked; ServerResults := [r];
                          CRRevocationMethod := RevocationMethodCRL |}), w')
  | _ =>
      CertCheckStatus_range ctx cert issuer fetcher signingTime
        (hasFreshestCRL cert) urls
        {| serverResults := serverResults vars ++ [r];
           lastErr := lastErr vars; crlURL := url |} w'
  end.
Proof.
  intros (bundle & Hf & Hfr & Hval & Hres).
  cbn [CertCheckStatus_range]. unfold bind at 1, call_Fetch. rewrite Hf.
  unfold bind at 1. rewrite (delta_test bundle _ Hfr).
  unfold bind at 1. rewrite Hval, Hres.
  destruct (SRResult r); reflexivity.
Qed.

Lemma range_fails (url : string) (urls : list string) (vars : loopVars)
    (w w' : World) (e : Error) :
  fails ctx cert issuer fetcher signingTime url w e w' ->
  CertCheckStatus_range ctx cert issuer fetcher signingTime
    (hasFreshestCRL cert) (url :: urls) vars w =
  (Returns (Falls {| serverResults := serverResults vars;
                     lastErr := Some e; crlURL := url |}), w').
Proof.
  intros [bundle err Hf|bundle Hf Hfr Hd|bundle err w1 Hf Hfr Hval
         |bundle r err w1 Hf Hfr Hval Hres];
    cbn [CertCheckStatus_range]; unfold bind at 1, call_Fetch; rewrite Hf.
  - reflexivity.
  - unfold bind at 1. rewrite Hfr, Hd. reflexivity.
  - unfold bind at 1. rewrite (delta_test bundle _ Hfr).
    unfold bind at 1. rewrite Hval. reflexivity.
  - unfold bind at 1. rewrite (delta_test bundle _ Hfr).
    unfold bind at 1. rewrite Hval, Hres. destruct r; reflexivity.
Qed.

Lemma range_visits (pre rest : list string) (vars : loopVars)
    (w w1 : World) (results : list ServerResult) (url : string) :
  visits ctx cert issuer fetcher signingTime pre w results w1 ->
  exists u,
    CertCheckStatus_range ctx cert issuer fetcher signingTime
      (hasFreshestCRL cert) (pre ++ url :: rest) vars w =
    CertCheckStatus_range ctx cert issuer fetcher signingTime
      (hasFreshestCRL cert) (url :: rest)
      {| serverResults := serverResults vars ++ results;
         lastErr := lastErr vars; crlURL := u |} w1.
Proof.
  intros Hvis. revert vars.
  induction Hvis as [w|u urls w w1 w2 r rs Hres Hnr Hvis IH]; intros vars.
  - exists (crlURL vars). simpl app. rewrite app_nil_r.
    destruct vars; reflexivity.
  - rewrite <- app_comm_cons, (range_resolves _ _ _ _ _ _ Hres).
    assert (Hgo : forall (A : Type) (a b : A),
              match SRResult r with ResultRevoked => a | _ => b end = b)
      by (intros A a b; destruct (SRResult r); congruence).
    rewrite Hgo.
    destruct (IH {| serverResults := serverResults vars ++ [r];
                    lastErr := lastErr vars; crlURL := u |}) as [u' Hu'].
    exists u'. rewrite Hu'. cbn [serverResults lastErr crlURL].
    rewrite <- app_assoc. reflexivity.
Qed.

Lemma Supported_split (pre post : list string) (url : string) :
  CRLDistributionPoints cert = pre ++ url :: post ->
  Supported (Some cert) = true.
Proof.
  intros H. unfold Supported. rewrite H, length_app.
  apply Z.ltb_lt. simpl. lia.
Qed.

Lemma CertCheckStatus_loop (opts_fetcher : crl_Fetcher) (w : World) :
  Supported (Some cert) = true ->
  CertCheckStatus ctx (Some cert) issuer
    {| Fetcher := Some opts_fetcher; SigningTime := signingTime |} w =
  match CertCheckStatus_range ctx cert issuer opts_fetcher signingTime
          (hasFreshestCRL cert) (CRLDistributionPoints cert)
          {| serverResults := []; lastErr := None; crlURL := "" |} w with
  | (Returns (Return r), w') => (Returns r, w')
  | (Returns (Falls vars), w') =>
      match lastErr vars with
      | Some e =>
          (Returns {| CRResult := ResultUnknown;
                      ServerResults :=
                        [{| SRResult := ResultUnknown; Server := crlURL vars;
                            SRError := Some e;
                            SRRevocationMethod := RevocationMethodCRL |}];
                      CRRevocationMethod := RevocationMethodCRL |}, w')
      | None =>
          (Returns {| CRResult := ResultOK;
                      ServerResults := serverResults vars;
                      CRRevocationMethod := RevocationMethodCRL |}, w')
      end
  | (Panics, w') => (Panics, w')
  end.
Proof.
  intros Hsup. unfold CertCheckStatus. rewrite Hsup.
  cbn [negb Fetcher SigningTime]. unfold bind. fold (hasFreshestCRL cert).
  destruct (CertCheckStatus_range ctx cert issuer opts_fetcher signingTime
              (hasFreshestCRL cert) (CRLDistributionPoints cert) _ w)
    as [[[r|vars]|] w']; try reflexivity.
  destruct (lastErr vars); reflexivity.
Qed.

(** C5. For a certificate with distribution-point URLs and a configured
    fetcher: when the URLs before some URL are each fetched, validated and
    resolved without error to a status other than Revoked, and that URL
    resolves to Revoked, [CertCheckStatus] returns Revoked with exactly one
    server result, the one of the revoking URL, and the fetcher has been
    called for the URLs up to the revoking one and for no URL after it. *)
Theorem CertCheckStatus_revoked (pre post : list string) (url : string)
    (w w1 w2 : World) (results : list ServerResult)
    (crlResult : ServerResult) :
  CRLDistributionPoints cert = pre ++ url :: post ->
  visits ctx cert issuer fetcher signingTime pre w results w1 ->
  resolves ctx cert issuer fetcher signingTime url w1 crlResult w2 ->
  SRResult crlResult = ResultRevoked ->
  CertCheckStatus ctx (Some cert) issuer
    {| Fetcher := Some fetcher; SigningTime := signingTime |} w
  = (Returns {| CRResult := ResultRevoked;
                ServerResults := [crlResult];
                CRRevocationMethod := RevocationMethodCRL |}, w2)
  /\ fetched w2 = fetched w ++ pre ++ [url].
Proof.
  intros Hsplit Hvis Hres Hrev. split.
  - rewrite CertCheckStatus_loop by (eapply Supported_split; eassumption).
    rewrite Hsplit.
    destruct (range_visits pre post
                {| serverResults := []; lastErr := None; crlURL := "" |}
                w w1 results url Hvis) as [u ->].
    rewrite (range_resolves _ _ _ _ _ _ Hres), Hrev. reflexivity.
  - rewrite (resolves_fetched _ _ _ _ Hres), (visits_fetched _ _ _ _ Hvis).
    rewrite app_assoc. reflexivity.
Qed.

(** C6. For a certificate with distribution-point URLs and a configured
    fetcher: when the URLs before some URL resolve without error to a
    status other than Revoked and a step fails for that URL (the fetch, the
    freshest-CRL condition, the validation of the bundle or the resolution),
    [CertCheckStatus] returns Unknown with exactly one server result, which
    carries the error of the failed step and the URL it failed for; the
    results of the earlier URLs are not in it, and the fetcher is not called
    for any later URL. *)
Theorem CertCheckStatus_unknown (pre post : list string) (url : string)
    (w w1 w2 : World) (results : list ServerResult) (e : Error) :
  CRLDistributionPoints cert = pre ++ url :: post ->
  visits ctx cert issuer fetcher signingTime pre w results w1 ->
  fails ctx cert issuer fetcher signingTime url w1 e w2 ->
  CertCheckStatus ctx (Some cert) issuer
    {| Fetcher := Some fetcher; SigningTime := signingTime |} w
  = (Returns {| CRResult := ResultUnknown;
                ServerResults :=
                  [{| SRResult := ResultUnknown; Server := url;
                      SRError := Some e;
                      SRRevocationMethod := RevocationMethodCRL |}];
                CRRevocationMethod := RevocationMethodCRL |}, w2)
  /\ fetched w2 = fetched w ++ pre ++ [url].
Proof.
  intros Hsplit Hvis Hfail. split.
  - rewrite CertCheckStatus_loop by (eapply Supported_split; eassumption).
    rewrite Hsplit.
    destruct (range_visits pre post
                {| serverResults := []; lastErr := None; crlURL := "" |}
                w w1 results url Hvis) as [u ->].
    rewrite (range_fails _ _ _ _ _ _ Hfail). reflexivity.
  - rewrite (fails_fetched _ _ _ _ Hfail), (visits_fetched _ _ _ _ Hvis).
    rewrite app_assoc. reflexivity.
Qed.

End CertCheckStatus.

(** * The package on concrete inputs *)

Section Scenarios.

Import Doubles.

(** The example scenarios of the specification (section 8). *)

Example scenario_keyCompromise :
  checkRevocation (Some (cert42 ["u"]))
    (Some (mkBundle (Some (crlOf 5 2000 [entry 42 10 1 []] [])) None)) 0 "u"
  = (Some (serverResult ResultRevoked "u"), None).
Proof. reflexivity. Qed.

Example scenario_certificateHold :
  checkRevocation (Some (cert42 ["u"]))
    (Some (mkBundle (Some (crlOf 5 2000 [entry 42 10 6 []] [])) None)) 0 "u"
  = (Some (serverResult ResultRevoked "u"), None).
Proof. reflexivity. Qed.

Example scenario_hold_then_remove :
  checkRevocation (Some (cert42 ["u"]))
    (Some (mkBundle (Some (crlOf 5 2000 [entry 42 10 6 []] []))
                    (Some (crlOf 6 2000 [entry 42 20 8 []]
                                 [deltaIndicator [x02; x01; x05]]))))
    0 "u"
  = (Some (serverResult ResultOK "u"), None).
Proof. reflexivity. Qed.

Example scenario_delta_number_not_greater :
  validate
    (Some (mkBundle (Some (crlOf 5 2000 [] []))
                    (Some (crlOf 5 2000 [] [deltaIndicator [x02; x01; x05]]))))
    (Some issuer) world0
  = (Returns (Some (errDeltaNumber (Some 5) (Some 5))), tick (tick world0)).
Proof. reflexivity. Qed.

(** Two CRLs without a CRL number compare equal, pointer against pointer,
    and the bundle is refused with an error. *)
Example scenario_no_numbers :
  validate
    (Some (mkBundle (Some (crlWithoutNumber 2000 [] []))
                    (Some (crlWithoutNumber 2000 []
                             [deltaIndicator [x02; x01; x05]]))))
    (Some issuer) world0
  = (Returns (Some (errDeltaNumber None None)), tick (tick world0)).
Proof. reflexivity. Qed.

Example scenario_no_distribution_point :
  fst (CertCheckStatus tt (Some (cert42 [])) (Some issuer)
         {| Fetcher := Some (fetcherOf []); SigningTime := 0 |} world0)
  = Returns
      {| CRResult := ResultNonRevokable;
         ServerResults :=
           [{| SRResult := ResultNonRevokable; Server := "";
               SRError := Some (New "CRL is not supported");
               SRRevocationMethod := RevocationMethodCRL |}];
         CRRevocationMethod := RevocationMethodCRL |}.
Proof. reflexivity. Qed.

Example scenario_signed_before_invalidity :
  checkRevocation (Some (cert42 ["u"]))
    (Some (mkBundle
       (Some (crlOf 5 2000
                [entry 42 10 1 [invalidityDateExt der_20240110]] []))
       None))
    t_20240101 "u"
  = (Some (serverResult ResultOK "u"), None).
Proof. reflexivity. Qed.

(** The walk depends on the order of the entries (section 9): a permanent
    entry placed before the entry with the invalidity date is reached
    first. *)
Example scenario_permanent_before_dated :
  checkRevocation (Some (cert42 ["u"]))
    (Some (mkBundle
       (Some (crlOf 5 2000
                [entry 42 10 1 [];
                 entry 42 20 1 [invalidityDateExt der_20240110]] []))
       None))
    t_20240101 "u"
  = (Some (serverResult ResultRevoked "u"), None).
Proof. reflexivity. Qed.

Example scenario_all_ok :
  CertCheckStatus tt (Some (cert42 ["a"; "b"])) (Some issuer)
    {| Fetcher :=
         Some (fetcherOf [("a", (Some cleanBundle, None));
                          ("b", (Some cleanBundle, None))]);
       SigningTime := 0 |} world0
  = (Returns {| CRResult := ResultOK;
                ServerResults :=
                  [serverResult ResultOK "a"; serverResult ResultOK "b"];
                CRRevocationMethod := RevocationMethodCRL |},
     tick (called "b" (tick (called "a" world0)))).
Proof. reflexivity. Qed.

End Scenarios.

Section Instances.

Import Doubles.

(** C1 at a concrete bundle: an entry for another serial, a certificateHold
    for serial 42, then a keyCompromise entry with invalidity date
    2024-01-10, then one more keyCompromise entry; signed on 2024-01-01. *)
Lemma checkRevocation_signed_before_invalidity_witness :
  checkRevocation (Some (cert42 ["u"]))
    (Some (mkBundle
       (Some (crlOf 5 2000
                [entry 7 10 1 []; entry 42 20 6 [];
                 entry 42 30 1 [invalidityDateExt der_20240110];
                 entry 42 40 1 []] []))
       None))
    t_20240101 "u"
  = (Some (serverResult ResultOK "u"), None).
Proof.
  apply (checkRevocation_signed_before_invalidity
           (cert42 ["u"]) _ None t_20240101 "u"
           [entry 7 10 1 []; entry 42 20 6 []]
           [entry 42 40 1 []]
           (entry 42 30 1 [invalidityDateExt der_20240110])
           (Some (entry 42 20 6 []))
           {| invalidityDate := t_20240110 |}).
  - vm_compute. discriminate.
  - reflexivity.
  - reflexivity.
  - reflexivity.
  - reflexivity.
  - vm_compute. discriminate.
  - vm_compute. reflexivity.
Defined.

(** C2 as stated fails: a certificateHold entry with an unsupported
    critical extension is a temporary entry that does not trigger the
    short-circuit, and [checkRevocation] returns neither Revoked nor OK but
    the error of the parser. *)
Lemma checkRevocation_temporary_unparsed :
  let cert := cert42 ["u"] in
  let base := crlOf 5 2000 [entry 42 10 6 [unknownCritical]] [] in
  (forall e, In e (revocationListIter base None) ->
     SerialNumber e = CertSerialNumber cert ->
     temporary e /\ shortCircuits 500 e = false)
  /\ checkRevocation (Some cert) (Some (mkBundle (Some base) None)) 500 "u"
     = (None, Some (Errorf "unsupported critical extension found in CRL: %v"
                           [ArgOID [2; 5; 29; 99]]))
  /\ ~ (exists status,
          checkRevocation (Some cert) (Some (mkBundle (Some base) None))
            500 "u"
          = (Some (serverResult status "u"), None)).
Proof.
  cbv zeta. split; [|split].
  - intros e [<-|[]] _. split; [left|]; reflexivity.
  - reflexivity.
  - intros [status H]. vm_compute in H. discriminate.
Qed.

(** C2, amended, at a concrete bundle: a certificateHold in the base CRL and
    a later removeFromCRL in the delta CRL. *)
Lemma checkRevocation_temporary_witness :
  exists latest status,
    reaches (cert42 ["u"]) 500 "u"
      [entry 42 10 6 []; entry 7 15 1 []; entry 42 20 8 []] latest /\
    tracks [entry 42 10 6 []; entry 42 20 8 []] latest /\
    checkRevocation (Some (cert42 ["u"]))
      (Some (mkBundle
         (Some (crlOf 5 2000 [entry 42 10 6 []; entry 7 15 1 []] []))
         (Some (crlOf 6 2000 [entry 42 20 8 []]
                      [deltaIndicator [x02; x01; x05]]))))
      500 "u"
    = (Some (serverResult status "u"), None) /\
    (status = ResultRevoked <->
     exists t, latest = Some t /\ ReasonCode t = reasonCodeCertificateHold) /\
    (status = ResultOK <->
     latest = None \/
     exists t, latest = Some t /\ ReasonCode t = reasonCodeRemoveFromCRL).
Proof.
  apply (checkRevocation_temporary (cert42 ["u"])
           (crlOf 5 2000 [entry 42 10 6 []; entry 7 15 1 []] [])
           (Some (crlOf 6 2000 [entry 42 20 8 []]
                        [deltaIndicator [x02; x01; x05]]))
           500 "u").
  intros e [<-|[<-|[<-|[]]]] Hs; try discriminate Hs;
    (split; [(left; reflexivity) || (right; reflexivity)
            |split; reflexivity]).
Defined.

(** C3 as stated fails: a keyCompromise entry with an unsupported critical
    extension is reached, does not trigger the short-circuit, and
    [checkRevocation] returns the error of the parser, not Revoked. *)
Lemma checkRevocation_permanent_unparsed :
  let cert := cert42 ["u"] in
  let e := entry 42 10 1 [unknownCritical] in
  let bundle := mkBundle (Some (crlOf 5 2000 [e] [])) None in
  reaches cert 500 "u" [] None
  /\ SerialNumber e = CertSerialNumber cert
  /\ ReasonCode e <> reasonCodeCertificateHold
  /\ ReasonCode e <> reasonCodeRemoveFromCRL
  /\ shortCircuits 500 e = false
  /\ checkRevocation (Some cert) (Some bundle) 500 "u"
     = (None, Some (Errorf "unsupported critical extension found in CRL: %v"
                           [ArgOID [2; 5; 29; 99]]))
  /\ checkRevocation (Some cert) (Some bundle) 500 "u"
     <> (Some (serverResult ResultRevoked "u"), None).
Proof.
  cbv zeta. repeat split; try reflexivity; try discriminate.
Qed.

(** C3, amended, at a concrete bundle: a certificateHold, then a
    keyCompromise, then a removeFromCRL for serial 42. *)
Lemma checkRevocation_permanent_witness :
  checkRevocation (Some (cert42 ["u"]))
    (Some (mkBundle
       (Some (crlOf 5 2000
                [entry 42 10 6 []; entry 42 20 1 []; entry 42 30 8 []] []))
       None))
    500 "u"
  = (Some (serverResult ResultRevoked "u"), None).
Proof.
  apply (checkRevocation_permanent (cert42 ["u"]) _ None 500 "u"
           [entry 42 10 6 []] [entry 42 30 8 []] (entry 42 20 1 [])
           (Some (entry 42 10 6 []))).
  - reflexivity.
  - reflexivity.
  - reflexivity.
  - vm_compute. discriminate.
  - vm_compute. discriminate.
  - reflexivity.
  - reflexivity.
Defined.

(** C4 at a concrete bundle: a base CRL without a CRL number, and a delta
    CRL number 6 with the indicator 3; both pass [validateCRL]. *)
Lemma validate_delta_nil_number_witness :
  validate
    (Some (mkBundle (Some (crlWithoutNumber 2000 [] []))
                    (Some (crlOf 6 2000 [] [deltaIndicator [x02; x01; x03]]))))
    (Some issuer) world0
  = (Panics, tick (tick world0)).
Proof.
  apply (validate_delta_nil_number (lib := libraries)
           (crlWithoutNumber 2000 [] [])
           (crlOf 6 2000 [] [deltaIndicator [x02; x01; x03]])
           (Some issuer) world0 (tick world0) (tick (tick world0))).
  - reflexivity.
  - reflexivity.
  - left. split; [reflexivity|discriminate].
Defined.

(** X22 at a concrete bundle: base CRL number 5, delta CRL number 6 with
    the indicator 3. *)
Lemma validate_delta_witness :
  validate
    (Some (mkBundle (Some (crlOf 5 2000 [] []))
                    (Some (crlOf 6 2000 [] [deltaIndicator [x02; x01; x03]]))))
    (Some issuer) world0
  = (Returns None, tick (tick world0)).
Proof.
  apply (proj1 (validate_delta (lib := libraries) (crlOf 5 2000 [] [])
                  (crlOf 6 2000 [] [deltaIndicator [x02; x01; x03]])
                  (Some issuer) world0 (tick world0) (tick (tick world0))
                  5 6
                  ltac:(reflexivity) ltac:(reflexivity)
                  ltac:(reflexivity) ltac:(reflexivity))).
  split.
  - vm_compute. reflexivity.
  - exists (deltaIndicator [x02; x01; x03]), 3, [].
    split; [reflexivity|]. split; [reflexivity|]. vm_compute. discriminate.
Defined.

(** C5 at a concrete certificate: three URLs, the second of which serves a
    CRL that revokes the certificate; the third is never fetched. *)
Lemma CertCheckStatus_revoked_witness :
  CertCheckStatus tt (Some (cert42 ["a"; "b"; "c"])) (Some issuer)
    {| Fetcher :=
         Some (fetcherOf [("a", (Some cleanBundle, None));
                          ("b", (Some revokingBundle, None));
                          ("c", (Some cleanBundle, None))]);
       SigningTime := 0 |} world0
  = (Returns {| CRResult := ResultRevoked;
                ServerResults := [serverResult ResultRevoked "b"];
                CRRevocationMethod := RevocationMethodCRL |},
     tick (called "b" (tick (called "a" world0))))
  /\ fetched (tick (called "b" (tick (called "a" world0)))) = ["a"; "b"].
Proof.
  apply (CertCheckStatus_revoked (lib := libraries) tt (cert42 ["a"; "b"; "c"]) (Some issuer)
           (fetcherOf [("a", (Some cleanBundle, None));
                       ("b", (Some revokingBundle, None));
                       ("c", (Some cleanBundle, None))])
           0 ["a"] ["c"] "b" world0 (tick (called "a" world0))
           (tick (called "b" (tick (called "a" world0))))
           [serverResult ResultOK "a"] (serverResult ResultRevoked "b")).
  - reflexivity.
  - apply visits_cons with (w1 := tick (called "a" world0)).
    + exists cleanBundle. repeat split; try reflexivity. discriminate.
    + discriminate.
    + apply visits_nil.
  - exists revokingBundle. repeat split; try reflexivity. discriminate.
  - reflexivity.
Defined.

(** C6 at a concrete certificate: three URLs, the first resolves to OK, the
    fetch of the second fails; the third is never fetched. *)
Lemma CertCheckStatus_unknown_witness :
  CertCheckStatus tt (Some (cert42 ["a"; "b"; "c"])) (Some issuer)
    {| Fetcher :=
         Some (fetcherOf [("a", (Some cleanBundle, None));
                          ("b", (None, Some (New "connection refused")));
                          ("c", (Some cleanBundle, None))]);
       SigningTime := 0 |} world0
  = (Returns {| CRResult := ResultUnknown;
                ServerResults :=
                  [{| SRResult := ResultUnknown; Server := "b";
                      SRError :=
                        Some (Errorf "failed to download CRL from %s: %w"
                                [ArgStr "b";
                                 ArgErr (New "connection refused")]);
                      SRRevocationMethod := RevocationMethodCRL |}];
                CRRevocationMethod := RevocationMethodCRL |},
     called "b" (tick (called "a" world0)))
  /\ fetched (called "b" (tick (called "a" world0))) = ["a"; "b"].
Proof.
  apply (CertCheckStatus_unknown (lib := libraries) tt (cert42 ["a"; "b"; "c"]) (Some issuer)
           (fetcherOf [("a", (Some cleanBundle, None));
                       ("b", (None, Some (New "connection refused")));
                       ("c", (Some cleanBundle, None))])
           0 ["a"] ["c"] "b" world0 (tick (called "a" world0))
           (called "b" (tick (called "a" world0)))
           [serverResult ResultOK "a"]).
  - reflexivity.
  - apply visits_cons with (w1 := tick (called "a" world0)).
    + exists cleanBundle. repeat split; try reflexivity. discriminate.
    + discriminate.
    + apply visits_nil.
  - apply (fails_fetch (lib := libraries) tt (cert42 ["a"; "b"; "c"]) (Some issuer) _ 0 "b"
             (tick (called "a" world0)) None (New "connection refused")).
    reflexivity.
Defined.

(** C7 as stated fails: a CRL whose next-update is exactly the current
    time, which is not in the future, passes per-CRL validation. *)
Lemma validateCRL_next_update_now :
  let crl := crlOf 5 1000 [] [] in
  CheckSignatureFrom (Some crl) (Some issuer) = Returns None
  /\ NextUpdate crl <= clock world0 0%nat
  /\ validateCRL (Some crl) (Some issuer) world0
     = (Returns None, tick world0).
Proof.
  cbv zeta. split; [reflexivity|]. split; [|reflexivity].
  vm_compute. discriminate.
Qed.

(** C7, amended, at a concrete CRL: next-update 999 read at time 1000. *)
Lemma validateCRL_next_update_witness :
  validateCRL (Some (crlOf 5 999 [] [])) (Some issuer) world0
  = (Returns (Some (Errorf
       "expired CRL. Current time %v is after CRL NextUpdate %v"
       [ArgTime 1000; ArgTime 999])), tick world0).
Proof.
  apply (proj1 (proj2 (validateCRL_next_update (lib := libraries)
                         (crlOf 5 999 [] [])
                         (Some issuer) world0 ltac:(reflexivity)))).
  - vm_compute. discriminate.
  - vm_compute. reflexivity.
Defined.

(** C8 at a concrete CRL: a critical issuing distribution point, a critical
    delta CRL indicator and a non-critical extension of another kind. *)
Lemma validateCRL_extensions_witness :
  validateCRL
    (Some (crlOf 6 2000 []
             [{| Id := oidIssuingDistributionPoint; Critical := true;
                 Value := [x30; x00] |};
              deltaIndicator [x02; x01; x03];
              {| Id := [2; 5; 29; 20]; Critical := false;
                 Value := [x02; x01; x06] |}]))
    (Some issuer) world0
  = (Returns None, tick world0).
Proof.
  apply (proj1 (validateCRL_extensions (lib := libraries)
                  (crlOf 6 2000 []
                     [{| Id := oidIssuingDistributionPoint; Critical := true;
                         Value := [x30; x00] |};
                      deltaIndicator [x02; x01; x03];
                      {| Id := [2; 5; 29; 20]; Critical := false;
                         Value := [x02; x01; x06] |}])
                  (Some issuer) world0
                  ltac:(reflexivity)
                  ltac:(vm_compute; discriminate)
                  ltac:(vm_compute; discriminate))).
  intros ext [<-|[<-|[<-|[]]]].
  - left. reflexivity.
  - right. left. reflexivity.
  - right. right. reflexivity.
Defined.

(** C9 at a concrete entry: an invalidity date with one trailing byte. *)
Example parseEntryExtensions_trailing :
  parseEntryExtensions
    (entry 42 10 1 [invalidityDateExt (der_20240110 ++ [x00])])
  = (entryExtensions_zero,
     Some (Errorf "invalid invalidity date extension: trailing data" [])).
Proof. reflexivity. Qed.

(** C10 as stated fails: two well-formed invalidity dates followed by an
    unsupported critical extension make [parseEntryExtensions] fail. *)
Lemma parseEntryExtensions_last_wins_critical :
  let e := entry 42 10 1 [invalidityDateExt der_20240101;
                          invalidityDateExt der_20240110;
                          unknownCritical] in
  (forall x, In x (EntryExtensions e) -> Id x = oidInvalidityDate ->
     exists t, UnmarshalGeneralized (Value x) = Decoded t [])
  /\ parseEntryExtensions e
     = (entryExtensions_zero,
        Some (Errorf "unsupported critical extension found in CRL: %v"
                     [ArgOID [2; 5; 29; 99]])).
Proof.
  cbv zeta. split; [|reflexivity].
  intros x [<-|[<-|[<-|[]]]] Hid.
  - exists t_20240101. reflexivity.
  - exists t_20240110. reflexivity.
  - discriminate Hid.
Qed.

(** C10, amended, at a concrete entry: two invalidity dates and a
    non-critical extension of another kind. *)
Lemma parseEntryExtensions_last_wins_witness :
  parseEntryExtensions
    (entry 42 10 1 [invalidityDateExt der_20240101;
                    invalidityDateExt der_20240110;
                    {| Id := [2; 5; 29; 21]; Critical := false;
                       Value := [x0a; x01; x01] |}])
  = ({| invalidityDate := t_20240110 |}, None).
Proof.
  apply (parseEntryExtensions_last_wins _
           [invalidityDateExt der_20240101]
           [{| Id := [2; 5; 29; 21]; Critical := false;
               Value := [x0a; x01; x01] |}]
           (invalidityDateExt der_20240110) t_20240110).
  - reflexivity.
  - reflexivity.
  - intros x [<-|[]]. discriminate.
  - exists (invalidityDateExt der_20240101). split; [left|]; reflexivity.
  - intros x [<-|[<-|[<-|[]]]] Hid.
    + exists t_20240101. reflexivity.
    + exists t_20240110. reflexivity.
    + discriminate Hid.
  - reflexivity.
  - intros x [<-|[<-|[<-|[]]]] Hid; try reflexivity;
      exfalso; apply Hid; reflexivity.
Defined.

End Instances.

(** * Further properties of the package *)

Section ParseEntryExtensionsMore.

Context {lib : Libraries}.

Lemma not_rejected_invalidity (ext : Extension) :
  Id ext = oidInvalidityDate -> ~ rejected ext ->
  exists t, UnmarshalGeneralized (Value ext) = Decoded t [].
Proof.
  intros Hid Hnr.
  destruct (UnmarshalGeneralized (Value ext)) as [t rest|err] eqn:Hdec.
  - destruct rest as [|b rest]; [eauto|].
    exfalso. apply Hnr. right; left. split; [exact Hid|].
    exists t, (b :: rest). split; [exact Hdec|discriminate].
  - exfalso. apply Hnr. left. eauto.
Qed.

Lemma not_rejected_other (ext : Extension) :
  Id ext <> oidInvalidityDate -> ~ rejected ext -> Critical ext = false.
Proof.
  intros Hid Hnr. destruct (Critical ext) eqn:Hc; [|reflexivity].
  exfalso. apply Hnr. right; right. auto.
Qed.

(** X1. [parseEntryExtensions] succeeds exactly when no extension of the
    entry is rejected: every invalidity date decodes with nothing left
    over, and no extension with another identifier is critical. *)
Theorem parseEntryExtensions_succeeds_iff (entry : RevocationListEntry) :
  (exists extensions, parseEntryExtensions entry = (extensions, None)) <->
  (forall ext, In ext (EntryExtensions entry) -> ~ rejected ext).
Proof.
  unfold parseEntryExtensions. split.
  - intros [extensions Hok] ext Hin Hbad.
    destruct (range_rejected (EntryExtensions entry) entryExtensions_zero
                (ex_intro _ ext (conj Hin Hbad))) as [err Herr].
    congruence.
  - intros Hall. apply range_accepts.
    + intros x Hin Hid. apply not_rejected_invalidity; auto.
    + intros x Hin Hid. apply not_rejected_other; auto.
Qed.

End ParseEntryExtensionsMore.

Section CheckRevocationMore.

Context {lib : Libraries}.

Lemma walk_return_shape (c : Certificate) (st : Time) (url : string)
    (entries : list RevocationListEntry)
    (acc : option RevocationListEntry)
    (r : option ServerResult * option Error) :
  checkRevocation_range c st url entries acc = Return r ->
  (exists err, r = (None, Some err)) \/
  r = (Some (serverResult ResultOK url), None) \/
  r = (Some (serverResult ResultRevoked url), None).
Proof.
  revert acc. induction entries as [|e entries IH]; intros acc; simpl;
    [discriminate|].
  destruct (Cmp (SerialNumber e) (CertSerialNumber c) =? 0); [|apply IH].
  destruct (parseEntryExtensions e) as [x [err|]].
  - intros H; inversion H. left. eauto.
  - destruct (signedBeforeInvalidity st x).
    + intros H; inversion H. auto.
    + destruct ((ReasonCode e =? reasonCodeCertificateHold)
                || (ReasonCode e =? reasonCodeRemoveFromCRL)); [apply IH|].
      intros H; inversion H. auto.
Qed.

(** X2. Whether the certificate, the bundle and the base CRL are nil or
    not (serial numbers being set, as the x509 parsers leave them),
    [checkRevocation] returns either an error and no result, or no error
    and a result for the given URL whose status is OK or Revoked: never
    both nil, never Unknown. *)
Theorem checkRevocation_result_shape (c : option Certificate)
    (b : option Bundle) (st : Time) (url : string) :
  (exists err, checkRevocation c b st url = (None, Some err)) \/
  checkRevocation c b st url = (Some (serverResult ResultOK url), None) \/
  checkRevocation c b st url = (Some (serverResult ResultRevoked url), None).
Proof.
  unfold checkRevocation.
  destruct c as [c|]; [|left; eauto].
  destruct b as [b|]; [|left; eauto].
  destruct (BaseCRL b) as [base|]; [|left; eauto].
  destruct (checkRevocation_range c st url
              (revocationListIter base (DeltaCRL b)) None)
    as [r|[latest|]] eqn:Hw.
  - apply walk_return_shape in Hw.
    destruct Hw as [[err ->]|[->| ->]]; eauto.
  - destruct (ReasonCode latest =? reasonCodeCertificateHold); auto.
  - auto.
Qed.

Variables (cert : Certificate) (signingTime : Time) (crlURL : string).

Lemma walk_matching (entries : list RevocationListEntry)
    (acc : option RevocationListEntry) :
  checkRevocation_range cert signingTime crlURL entries acc =
  checkRevocation_range cert signingTime crlURL (matching cert entries) acc.
Proof.
  revert acc. induction entries as [|e entries IH]; intros acc;
    [reflexivity|].
  unfold matching. cbn [filter]. fold (matching cert entries).
  destruct (SerialNumber e =? CertSerialNumber cert) eqn:Hs.
  - cbn [checkRevocation_range]. rewrite Cmp_eqb, Hs.
    destruct (parseEntryExtensions e) as [x [err|]]; [reflexivity|].
    destruct (signedBeforeInvalidity signingTime x); [reflexivity|].
    destruct ((ReasonCode e =? reasonCodeCertificateHold)
              || (ReasonCode e =? reasonCodeRemoveFromCRL));
      [apply IH|reflexivity].
  - apply Z.eqb_neq in Hs. rewrite walk_skip by exact Hs. apply IH.
Qed.

(** X3. The result of [checkRevocation] depends only on the entries with
    the serial number of the certificate, in merge order: two bundles with
    the same such entries give the same result, whatever else their CRLs
    list and however the entries are split between base and delta. *)
Theorem checkRevocation_only_matching (base base' : RevocationList)
    (delta delta' : option RevocationList) :
  matching cert (revocationListIter base delta) =
  matching cert (revocationListIter base' delta') ->
  checkRevocation (Some cert) (Some (mkBundle (Some base) delta))
    signingTime crlURL =
  checkRevocation (Some cert) (Some (mkBundle (Some base') delta'))
    signingTime crlURL.
Proof.
  intros Hm. rewrite !checkRevocation_walk.
  rewrite (walk_matching (revocationListIter base delta)).
  rewrite (walk_matching (revocationListIter base' delta')).
  rewrite Hm. reflexivity.
Qed.

(** X4. When neither the base CRL nor the delta CRL lists the serial number
    of the certificate, [checkRevocation] returns OK, without parsing any
    entry extension. *)
Theorem checkRevocation_not_listed (base : RevocationList)
    (delta : option RevocationList) :
  (forall e, In e (revocationListIter base delta) ->
     SerialNumber e <> CertSerialNumber cert) ->
  checkRevocation (Some cert) (Some (mkBundle (Some base) delta))
    signingTime crlURL
  = (Some (serverResult ResultOK crlURL), None).
Proof.
  intros Hall. rewrite checkRevocation_walk.
  assert (Hw : forall acc,
            checkRevocation_range cert signingTime crlURL
              (revocationListIter base delta) acc = Falls acc).
  { induction (revocationListIter base delta) as [|e entries IH];
      intros acc; [reflexivity|].
    rewrite walk_skip by (apply Hall; left; reflexivity).
    apply IH. intros x Hx. apply Hall. right; exact Hx. }
  rewrite Hw. reflexivity.
Qed.

(** X5. When the walk reaches an entry with the serial number of the
    certificate whose extensions do not parse, [checkRevocation] returns
    the error of the parser as it is, and no result, whatever the reason
    code of the entry and whatever entries follow. *)
Theorem checkRevocation_parse_error (base : RevocationList)
    (delta : option RevocationList)
    (pre post : list RevocationListEntry) (e : RevocationListEntry)
    (latest : option RevocationListEntry) (extensions : entryExtensions)
    (err : Error) :
  revocationListIter base delta = pre ++ e :: post ->
  reaches cert signingTime crlURL pre latest ->
  SerialNumber e = CertSerialNumber cert ->
  parseEntryExtensions e = (extensions, Some err) ->
  checkRevocation (Some cert) (Some (mkBundle (Some base) delta))
    signingTime crlURL
  = (None, Some err).
Proof.
  intros Hsplit Hreach Hs Hp.
  rewrite checkRevocation_walk, Hsplit, walk_app, Hreach.
  simpl. rewrite Cmp_eqb. apply Z.eqb_eq in Hs. rewrite Hs, Hp.
  reflexivity.
Qed.

(** X6. An invalidity date only helps a signature made strictly before it:
    when the walk reaches an entry with the serial number of the
    certificate whose extensions parse without error and whose reason code
    is neither certificateHold nor removeFromCRL, and the signing time is
    not set, or the parsed invalidity date is zero, or the signing time is
    at or after the invalidity date, [checkRevocation] returns Revoked. *)
Theorem checkRevocation_signed_not_before (base : RevocationList)
    (delta : option RevocationList)
    (pre post : list RevocationListEntry) (e : RevocationListEntry)
    (latest : option RevocationListEntry) (extensions : entryExtensions) :
  revocationListIter base delta = pre ++ e :: post ->
  reaches cert signingTime crlURL pre latest ->
  SerialNumber e = CertSerialNumber cert ->
  parseEntryExtensions e = (extensions, None) ->
  signingTime = 0 \/ invalidityDate extensions = 0 \/
  invalidityDate extensions <= signingTime ->
  ReasonCode e <> reasonCodeCertificateHold ->
  ReasonCode e <> reasonCodeRemoveFromCRL ->
  checkRevocation (Some cert) (Some (mkBundle (Some base) delta))
    signingTime crlURL
  = (Some (serverResult ResultRevoked crlURL), None).
Proof.
  intros Hsplit Hreach Hs Hp Hdate Hh Hr.
  rewrite checkRevocation_walk, Hsplit, walk_app, Hreach.
  simpl. rewrite Cmp_eqb. apply Z.eqb_eq in Hs. rewrite Hs, Hp.
  assert (Hsc : signedBeforeInvalidity signingTime extensions = false).
  { unfold signedBeforeInvalidity, IsZero, Before.
    destruct Hdate as [->|[->|Hle]].
    - reflexivity.
    - rewrite andb_false_r. reflexivity.
    - apply Z.ltb_ge in Hle. rewrite Hle. apply andb_false_r. }
  rewrite Hsc. apply Z.eqb_neq in Hh, Hr. rewrite Hh, Hr. reflexivity.
Qed.

(** X7. Ties keep the earlier entry: when the entries with the serial
    number of the certificate are all certificateHold or removeFromCRL
    entries that parse and do not trigger the short-circuit, and none of
    them is strictly later than the first, the first one decides:
    Revoked if it is a certificateHold, OK if it is a removeFromCRL. *)
Theorem checkRevocation_tie_keeps_first (base : RevocationList)
    (delta : option RevocationList) (first : RevocationListEntry)
    (others : list RevocationListEntry) :
  (forall e, In e (revocationListIter base delta) ->
     SerialNumber e = CertSerialNumber cert ->
     temporary e /\ snd (parseEntryExtensions e) = None /\
     shortCircuits signingTime e = false) ->
  matching cert (revocationListIter base delta) = first :: others ->
  (forall e, In e others -> RevocationTime e <= RevocationTime first) ->
  checkRevocation (Some cert) (Some (mkBundle (Some base) delta))
    signingTime crlURL
  = (Some (serverResult
             (if ReasonCode first =? reasonCodeCertificateHold
              then ResultRevoked else ResultOK) crlURL), None).
Proof.
  intros Hall Hm Hle.
  destruct (walk_tracks cert signingTime crlURL _ [] None Hall eq_refl)
    as (latest & Hw & Htr).
  simpl in Htr. rewrite Hm in Htr.
  rewrite checkRevocation_walk, Hw.
  destruct latest as [t|]; [|discriminate Htr].
  destruct Htr as (before & after & Heq & Hb & Ha).
  destruct before as [|f before].
  - simpl in Heq. injection Heq as Hf Ho. subst t.
    destruct (ReasonCode first =? reasonCodeCertificateHold); reflexivity.
  - exfalso. simpl in Heq. injection Heq as Hf Ho. subst f.
    assert (Hlt := Hb first (or_introl eq_refl)).
    assert (Hin : In t others) by (rewrite Ho; apply in_elt).
    specialize (Hle t Hin). lia.
Qed.

End CheckRevocationMore.

Section ValidateMore.

Context {lib : Libraries}.

Variable issuer : option Certificate.

Lemma validateCRL_not_nil (crl : option RevocationList) (w w' : World) :
  validateCRL crl issuer w = (Returns None, w') -> exists c, crl = Some c.
Proof.
  destruct crl as [c|]; [eauto|].
  unfold validateCRL.
  destruct (CheckSignatureFrom None issuer) as [[err|]|];
    [destruct issuer| |]; unfold ret, panic; discriminate.
Qed.

(** X8. [validateCRL] succeeds exactly when the CRL is not nil, its
    signature verifies against the issuer, its next-update is set and not
    before the current time, and every extension is an issuing distribution
    point, a delta CRL indicator or not critical; the clock has then been
    read once. *)
Theorem validateCRL_succeeds_iff (crl : option RevocationList)
    (w w' : World) :
  validateCRL crl issuer w = (Returns None, w') <->
  exists c,
    crl = Some c /\
    CheckSignatureFrom crl issuer = Returns None /\
    NextUpdate c <> 0 /\
    clock w 0%nat <= NextUpdate c /\
    (forall ext, In ext (Extensions c) -> accepted ext) /\
    w' = tick w.
Proof.
  split.
  - unfold validateCRL.
    destruct (CheckSignatureFrom crl issuer) as [[err|]|] eqn:Hsig.
    + destruct issuer; unfold ret, panic; discriminate.
    + destruct crl as [c|]; [|unfold panic; discriminate].
      unfold bind, time_Now, ret, IsZero, After.
      destruct (NextUpdate c =? 0) eqn:Hz; [discriminate|].
      destruct (NextUpdate c <? clock w 0%nat) eqn:Hlt; [discriminate|].
      intros H. injection H as Hr Hw.
      exists c. apply Z.eqb_neq in Hz. apply Z.ltb_ge in Hlt.
      pose proof (proj1 (validateCRL_range_accepts _) Hr) as Hacc.
      auto 10.
    + unfold panic. discriminate.
  - intros (c & -> & Hsig & Hset & Hfresh & Hacc & ->).
    rewrite (validateCRL_fresh c issuer w Hsig Hset Hfresh).
    rewrite (proj2 (validateCRL_range_accepts _) Hacc). reflexivity.
Qed.

(** X9. [validate] succeeds exactly when the base CRL passes [validateCRL]
    and either the bundle has no delta CRL, or the delta CRL passes
    [validateCRL] after it, both CRLs carry a number, that of the delta
    CRL is strictly greater than that of the base CRL, and the first
    delta-CRL-indicator extension of the delta CRL reads as an integer that
    is at most the number of the base CRL. *)
Theorem validate_succeeds_iff (bundle : Bundle) (w w' : World) :
  validate (Some bundle) issuer w = (Returns None, w') <->
  exists base w1,
    BaseCRL bundle = Some base /\
    validateCRL (Some base) issuer w = (Returns None, w1) /\
    match DeltaCRL bundle with
    | None => w' = w1
    | Some delta =>
        validateCRL (Some delta) issuer w1 = (Returns None, w') /\
        exists baseNumber deltaNumber,
          Number base = Some baseNumber /\
          Number delta = Some deltaNumber /\
          baseNumber < deltaNumber /\
          exists ext minimumBaseCRLNumber rest,
            FindExtensionByOID (Extensions delta) oidDeltaCRLIndicator
            = Some ext /\
            ReadASN1Integer (Value ext) = Some (minimumBaseCRLNumber, rest) /\
            minimumBaseCRLNumber <= baseNumber
    end.
Proof.
  unfold validate. split.
  - unfold bind at 1.
    destruct (validateCRL (BaseCRL bundle) issuer w) as [[[e|]|] w1] eqn:H1;
      try (unfold ret; discriminate).
    assert (Hb : exists base, BaseCRL bundle = Some base)
      by (eapply validateCRL_not_nil; exact H1).
    destruct Hb as [base Hb]. rewrite Hb in *.
    destruct (DeltaCRL bundle) as [delta|].
    + unfold bind at 1.
      destruct (validateCRL (Some delta) issuer w1) as [[[e|]|] w2] eqn:H2;
        try (unfold ret; discriminate).
      unfold bind, lift.
      destruct (Number delta) as [nd|] eqn:Hnd;
        destruct (Number base) as [nb|] eqn:Hnb; cbn [CmpInt];
        try discriminate; try (cbn; unfold ret; discriminate).
      rewrite Cmp_leb.
      destruct (nd <=? nb) eqn:Hn;
        [unfold ret; discriminate|]. apply Z.leb_gt in Hn.
      destruct (FindExtensionByOID (Extensions delta) oidDeltaCRLIndicator)
        as [ext|] eqn:Hfind; [|unfold ret; discriminate].
      destruct (ReadASN1Integer (Value ext)) as [[m rest]|] eqn:Hread;
        [|unfold ret; discriminate].
      cbn [CmpInt]. rewrite Cmp_gtb.
      destruct (nb <? m) eqn:Hm; [unfold ret; discriminate|].
      apply Z.ltb_ge in Hm.
      unfold ret. intros H. injection H as <-.
      exists base, w1. split; [reflexivity|]. split; [exact H1|].
      split; [exact H2|]. exists nb, nd.
      split; [first [reflexivity|exact Hnb]|].
      split; [first [reflexivity|exact Hnd]|]. split; [exact Hn|].
      exists ext, m, rest. auto.
    + unfold ret. intros H. injection H as <-.
      exists base, w1. auto.
  - intros (base & w1 & Hb & H1 & Hd). rewrite Hb.
    unfold bind at 1. rewrite H1.
    destruct (DeltaCRL bundle) as [delta|].
    + destruct Hd as (H2 & nb & nd & Hnb & Hnd & Hn & ext & m & rest
                      & Hf & Hr & Hm).
      unfold bind at 1. rewrite H2. unfold bind, lift.
      rewrite Hnb, Hnd. cbn [CmpInt]. rewrite Cmp_leb.
      apply Z.leb_gt in Hn. rewrite Hn, Hf, Hr. cbn [CmpInt].
      rewrite Cmp_gtb. apply Z.ltb_ge in Hm. rewrite Hm. reflexivity.
    + subst w'. reflexivity.
Qed.

(** X10. [validate] reports the failure of a CRL under the name of the CRL:
    the error of the base CRL is wrapped as a base CRL failure, whatever
    the delta CRL is, which is then not looked at; with a valid base CRL,
    the error of the delta CRL is wrapped as a delta CRL failure. *)
Theorem validate_wraps_crl_error (bundle : Bundle) (w : World) :
  (forall err w1,
     validateCRL (BaseCRL bundle) issuer w = (Returns (Some err), w1) ->
     validate (Some bundle) issuer w =
     (Returns (Some (Errorf "failed to validate base CRL: %w" [ArgErr err])),
      w1))
  /\
  (forall delta err w1 w2,
     validateCRL (BaseCRL bundle) issuer w = (Returns None, w1) ->
     DeltaCRL bundle = Some delta ->
     validateCRL (Some delta) issuer w1 = (Returns (Some err), w2) ->
     validate (Some bundle) issuer w =
     (Returns (Some (Errorf "failed to validate delta CRL: %w" [ArgErr err])),
      w2)).
Proof.
  unfold validate. split.
  - intros err w1 H1. unfold bind. rewrite H1. reflexivity.
  - intros delta err w1 w2 H1 Hd H2.
    unfold bind at 1. rewrite H1, Hd. unfold bind. rewrite H2. reflexivity.
Qed.

Lemma validateCRL_world (crl : option RevocationList) (w w' : World)
    (o : outcome (option Error)) :
  validateCRL crl issuer w = (o, w') -> w' = w \/ w' = tick w.
Proof.
  unfold validateCRL, bind, time_Now, ret, panic.
  destruct (CheckSignatureFrom crl issuer) as [[err|]|].
  - destruct issuer; intros H; inversion H; auto.
  - destruct crl as [c|]; [|intros H; inversion H; auto].
    destruct (IsZero (NextUpdate c)); [intros H; inversion H; auto|].
    destruct (After (clock w 0%nat) (NextUpdate c));
      intros H; inversion H; auto.
  - intros H; inversion H; auto.
Qed.

(** X11. [validate] never calls the fetcher, and reads the clock at most
    twice, once for each CRL of the bundle. *)
Theorem validate_world (bundle : option Bundle) (w : World) :
  fetched (snd (validate bundle issuer w)) = fetched w /\
  (snd (validate bundle issuer w) = w \/
   snd (validate bundle issuer w) = tick w \/
   snd (validate bundle issuer w) = tick (tick w)).
Proof.
  destruct (validate bundle issuer w) as [o w'] eqn:Hv. simpl.
  split; [eapply validate_fetched; exact Hv|].
  revert Hv. unfold validate.
  destruct bundle as [b|]; [|unfold panic; intros Hx; inversion Hx; auto].
  unfold bind at 1.
  destruct (validateCRL (BaseCRL b) issuer w) as [[[e|]|] w1] eqn:H1;
    apply validateCRL_world in H1.
  - unfold ret. intros Hx. inversion Hx. subst. tauto.
  - destruct (DeltaCRL b) as [d|];
      [|unfold ret; intros Hx; inversion Hx; subst; tauto].
    unfold bind.
    destruct (validateCRL (Some d) issuer w1) as [[[e|]|] w2] eqn:H2;
      apply validateCRL_world in H2;
      assert (Hw2 : w2 = w \/ w2 = tick w \/ w2 = tick (tick w))
        by (destruct H1, H2; subst; auto).
    + unfold ret. intros Hx. inversion Hx. subst. exact Hw2.
    + destruct (BaseCRL b) as [base|];
        [|unfold panic; intros Hx; inversion Hx; subst; exact Hw2].
      unfold lift.
      destruct (CmpInt (Number d) (Number base)) as [cmp|];
        [|intros Hx; inversion Hx; subst; exact Hw2].
      destruct (cmp <=? 0);
        [unfold ret; intros Hx; inversion Hx; subst; exact Hw2|].
      destruct (FindExtensionByOID (Extensions d) oidDeltaCRLIndicator)
        as [ext|]; [|unfold ret; intros Hx; inversion Hx; subst; exact Hw2].
      destruct (ReadASN1Integer (Value ext)) as [[m rest]|];
        [|unfold ret; intros Hx; inversion Hx; subst; exact Hw2].
      destruct (CmpInt (Some m) (Number base)) as [cmp'|];
        [|intros Hx; inversion Hx; subst; exact Hw2].
      destruct (cmp' >? 0);
        unfold ret; intros Hx; inversion Hx; subst; exact Hw2.
    + intros Hx. inversion Hx. subst. exact Hw2.
  - intros Hx. inversion Hx. subst. tauto.
Qed.

End ValidateMore.

Section CertCheckStatusMore.

Context {lib : Libraries}.

(** X12. For a nil certificate or one without distribution-point URLs,
    [CertCheckStatus] returns NonRevokable with one explanatory server
    result, whatever the issuer and the options, and neither calls the
    fetcher nor reads the clock. *)
Theorem CertCheckStatus_not_supported (ctx : Context)
    (cert issuer : option Certificate) (opts : CertCheckStatusOptions)
    (w : World) :
  cert = None \/
  (exists c, cert = Some c /\ CRLDistributionPoints c = []) ->
  CertCheckStatus ctx cert issuer opts w =
  (Returns {| CRResult := ResultNonRevokable;
              ServerResults :=
                [{| SRResult := ResultNonRevokable; Server := "";
                    SRError := Some (New "CRL is not supported");
                    SRRevocationMethod := RevocationMethodCRL |}];
              CRRevocationMethod := RevocationMethodCRL |}, w).
Proof.
  intros [->|(c & -> & Hurls)]; unfold CertCheckStatus, Supported;
    [|rewrite Hurls]; reflexivity.
Qed.

(** X13. For a certificate with at least one distribution-point URL and a
    nil fetcher, [CertCheckStatus] returns Unknown with one server result
    carrying the error, and does not read the clock. *)
Theorem CertCheckStatus_nil_fetcher (ctx : Context) (cert : Certificate)
    (issuer : option Certificate) (signingTime : Time) (w : World) :
  CRLDistributionPoints cert <> [] ->
  CertCheckStatus ctx (Some cert) issuer
    {| Fetcher := None; SigningTime := signingTime |} w =
  (Returns {| CRResult := ResultUnknown;
              ServerResults :=
                [{| SRResult := ResultUnknown; Server := "";
                    SRError := Some (New "CRL fetcher cannot be nil");
                    SRRevocationMethod := RevocationMethodCRL |}];
              CRRevocationMethod := RevocationMethodCRL |}, w).
Proof.
  intros Hurls. unfold CertCheckStatus, Supported.
  destruct (CRLDistributionPoints cert) as [|u urls]; [contradiction|].
  reflexivity.
Qed.

Variables (ctx : Context) (cert : Certificate) (issuer : option Certificate)
  (fetcher : crl_Fetcher) (signingTime : Time).

Lemma checkRevocation_cases (c : Certificate) (b : Bundle) (st : Time)
    (url : string) :
  match checkRevocation (Some c) (Some b) st url with
  | (None, Some _) => True
  | (Some r, None) =>
      r = serverResult ResultOK url \/ r = serverResult ResultRevoked url
  | _ => False
  end.
Proof.
  unfold checkRevocation.
  destruct (BaseCRL b) as [base|]; [|exact I].
  destruct (checkRevocation_range c st url
              (revocationListIter base (DeltaCRL b)) None)
    as [r|[latest|]] eqn:Hw.
  - apply walk_return_shape in Hw.
    destruct Hw as [[err ->]|[->| ->]]; auto.
  - destruct (ReasonCode latest =? reasonCodeCertificateHold); auto.
  - auto.
Qed.

Lemma range_step_validated (url : string) (urls : list string)
    (vars : loopVars) (w : World) (b : Bundle) :
  Fetch fetcher ctx (fetched w) url = (Some b, None) ->
  (hasFreshestCRL cert = true -> DeltaCRL b <> None) ->
  (exists w1,
     CertCheckStatus_range ctx cert issuer fetcher signingTime
       (hasFreshestCRL cert) (url :: urls) vars w = (Panics, w1) /\
     fetched w1 = fetched w ++ [url])
  \/ (exists e w1, fails ctx cert issuer fetcher signingTime url w e w1)
  \/ (exists r w1,
        resolves ctx cert issuer fetcher signingTime url w r w1 /\
        (r = serverResult ResultOK url \/ r = serverResult ResultRevoked url)).
Proof.
  intros Hf Hfr.
  destruct (validate (Some b) issuer (called url w)) as [[[err|]|] w1] eqn:Hv.
  - right; left. eexists. eexists. eapply fails_validate; eassumption.
  - pose proof (checkRevocation_cases cert b signingTime url) as Hc.
    destruct (checkRevocation (Some cert) (Some b) signingTime url)
      as [[r|] [err|]] eqn:Hres; try contradiction.
    + right; right. exists r, w1. split; [|exact Hc].
      exists b. auto.
    + right; left. eexists. eexists. eapply fails_resolve; eassumption.
  - left. exists w1. split.
    + cbn [CertCheckStatus_range]. unfold bind at 1, call_Fetch. rewrite Hf.
      unfold bind at 1. rewrite (delta_test cert b _ Hfr).
      unfold bind at 1. rewrite Hv. reflexivity.
    + apply (validate_fetched issuer) in Hv. exact Hv.
Qed.

(** One pass of the loop body either panics, or fails, or resolves to OK or
    to Revoked; the fetcher has been called once. *)
Lemma range_step (url : string) (urls : list string) (vars : loopVars)
    (w : World) :
  (exists w1,
     CertCheckStatus_range ctx cert issuer fetcher signingTime
       (hasFreshestCRL cert) (url :: urls) vars w = (Panics, w1) /\
     fetched w1 = fetched w ++ [url])
  \/ (exists e w1, fails ctx cert issuer fetcher signingTime url w e w1)
  \/ (exists r w1,
        resolves ctx cert issuer fetcher signingTime url w r w1 /\
        (r = serverResult ResultOK url \/ r = serverResult ResultRevoked url)).
Proof.
  destruct (Fetch fetcher ctx (fetched w) url) as [bundle [err|]] eqn:Hf.
  { right; left. eexists. eexists. eapply fails_fetch. exact Hf. }
  destruct bundle as [b|].
  2:{ left. exists (called url w). split; [|reflexivity].
      cbn [CertCheckStatus_range]. unfold bind at 1, call_Fetch. rewrite Hf.
      unfold bind at 1.
      destruct (hasFreshestCRL cert); reflexivity. }
  assert (Hcase : (hasFreshestCRL cert = true /\ DeltaCRL b = None) \/
                  (hasFreshestCRL cert = true -> DeltaCRL b <> None)).
  { destruct (hasFreshestCRL cert); [|right; discriminate].
    destruct (DeltaCRL b); [right; discriminate|left; auto]. }
  destruct Hcase as [[Hfr Hd]|Hfr].
  - right; left. eexists. eexists. eapply fails_freshest; eassumption.
  - apply (range_step_validated url urls vars w b Hf Hfr).
Qed.

Lemma range_prefix (urls : list string) (vars : loopVars) (w w' : World)
    (o : outcome (loopExit CertRevocationResult loopVars)) :
  CertCheckStatus_range ctx cert issuer fetcher signingTime
    (hasFreshestCRL cert) urls vars w = (o, w') ->
  exists p q, urls = p ++ q /\ fetched w' = fetched w ++ p.
Proof.
  revert vars w. induction urls as [|url urls IH]; intros vars w.
  - intros H. inversion H; subst. exists [], [].
    split; [reflexivity|symmetry; apply app_nil_r].
  - destruct (range_step url urls vars w)
      as [(w1 & Hp & Hlog)|[(e & w1 & Hfail)|(r & w1 & Hres & Hr)]].
    + rewrite Hp. intros H. inversion H; subst.
      exists [url], urls. auto.
    + rewrite (range_fails _ _ _ _ _ _ _ _ _ _ _ Hfail).
      intros H. inversion H; subst.
      exists [url], urls. split; [reflexivity|].
      eapply fails_fetched; eassumption.
    + rewrite (range_resolves _ _ _ _ _ _ _ _ _ _ _ Hres).
      pose proof (resolves_fetched _ _ _ _ _ _ _ _ _ Hres) as Hlog.
      destruct Hr as [->| ->]; cbn [SRResult serverResult].
      * intros H. apply IH in H. destruct H as (p & q & -> & Hp).
        exists (url :: p), q. split; [reflexivity|].
        rewrite Hp, Hlog, <- app_assoc. reflexivity.
      * intros H. inversion H; subst. exists [url], urls. auto.
Qed.

Lemma range_inv (urls : list string) (vars : loopVars) (w w' : World)
    (exit : loopExit CertRevocationResult loopVars) :
  lastErr vars = None ->
  CertCheckStatus_range ctx cert issuer fetcher signingTime
    (hasFreshestCRL cert) urls vars w = (Returns exit, w') ->
  match exit with
  | Return r =>
      exists pre url post results w1,
        urls = pre ++ url :: post /\
        visits ctx cert issuer fetcher signingTime pre w results w1 /\
        resolves ctx cert issuer fetcher signingTime url w1
          (serverResult ResultRevoked url) w' /\
        r = {| CRResult := ResultRevoked;
               ServerResults := [serverResult ResultRevoked url];
               CRRevocationMethod := RevocationMethodCRL |}
  | Falls vars' =>
      (exists results,
         visits ctx cert issuer fetcher signingTime urls w results w' /\
         lastErr vars' = None /\
         serverResults vars' = serverResults vars ++ results)
      \/
      (exists pre url post results w1 e,
         urls = pre ++ url :: post /\
         visits ctx cert issuer fetcher signingTime pre w results w1 /\
         fails ctx cert issuer fetcher signingTime url w1 e w' /\
         lastErr vars' = Some e /\ crlURL vars' = url)
  end.
Proof.
  revert vars w. induction urls as [|url urls IH]; intros vars w Hnone.
  - intros H. inversion H; subst. left. exists [].
    rewrite app_nil_r. split; [constructor|auto].
  - destruct (range_step url urls vars w)
      as [(w1 & Hp & Hlog)|[(e & w1 & Hfail)|(r & w1 & Hres & Hr)]].
    + rewrite Hp. discriminate.
    + rewrite (range_fails _ _ _ _ _ _ _ _ _ _ _ Hfail).
      intros H. inversion H; subst. right.
      exists [], url, urls, [], w, e.
      split; [reflexivity|]. split; [constructor|]. auto.
    + rewrite (range_resolves _ _ _ _ _ _ _ _ _ _ _ Hres).
      destruct Hr as [->| ->]; cbn [SRResult serverResult].
      * intros H. apply IH in H; [|exact Hnone].
        assert (Hnr : SRResult (serverResult ResultOK url) <> ResultRevoked)
          by discriminate.
        destruct exit as [r|vars'].
        -- destruct H as (pre & u & post & results & w2 & -> & Hv & Hrv & ->).
           exists (url :: pre), u, post,
             (serverResult ResultOK url :: results), w2.
           split; [reflexivity|].
           split; [econstructor; eassumption|auto].
        -- destruct H as [(results & Hv & Hl & Hs)
                         |(pre & u & post & results & w2 & e
                           & -> & Hv & Hf & Hl & Hu)].
           ++ left. exists (serverResult ResultOK url :: results).
              split; [econstructor; eassumption|]. split; [exact Hl|].
              rewrite Hs. cbn [serverResults]. rewrite <- app_assoc.
              reflexivity.
           ++ right. exists (url :: pre), u, post,
                (serverResult ResultOK url :: results), w2, e.
              split; [reflexivity|].
              split; [econstructor; eassumption|auto].
      * intros H. inversion H; subst.
        exists [], url, urls, [], w.
        split; [reflexivity|]. split; [constructor|auto].
Qed.

Lemma visits_results (urls : list string) (w w' : World)
    (results : list ServerResult) :
  visits ctx cert issuer fetcher signingTime urls w results w' ->
  results = map (serverResult ResultOK) urls.
Proof.
  induction 1 as [w|url urls w w1 w2 r rs Hres Hnr Hvis IH];
    [reflexivity|].
  simpl. rewrite <- IH. f_equal.
  destruct Hres as (b & _ & _ & _ & Hc).
  pose proof (checkRevocation_cases cert b signingTime url) as Hcases.
  rewrite Hc in Hcases. destruct Hcases as [->| ->];
    [reflexivity|exfalso; apply Hnr; reflexivity].
Qed.

Lemma range_visits_all (urls : list string) (vars : loopVars)
    (w w' : World) (results : list ServerResult) :
  visits ctx cert issuer fetcher signingTime urls w results w' ->
  exists u,
    CertCheckStatus_range ctx cert issuer fetcher signingTime
      (hasFreshestCRL cert) urls vars w =
    (Returns (Falls {| serverResults := serverResults vars ++ results;
                       lastErr := lastErr vars; crlURL := u |}), w').
Proof.
  intros Hvis. revert vars.
  induction Hvis as [w|u urls w w1 w2 r rs Hres Hnr Hvis IH]; intros vars.
  - exists (crlURL vars). rewrite app_nil_r. destruct vars; reflexivity.
  - rewrite (range_resolves _ _ _ _ _ _ _ _ _ _ _ Hres).
    assert (Hgo : forall (A : Type) (a b : A),
              match SRResult r with ResultRevoked => a | _ => b end = b)
      by (intros A a b; destruct (SRResult r); congruence).
    rewrite Hgo.
    destruct (IH {| serverResults := serverResults vars ++ [r];
                    lastErr := lastErr vars; crlURL := u |}) as [u' Hu'].
    exists u'. rewrite Hu'. cbn [serverResults lastErr crlURL].
    rewrite <- app_assoc. reflexivity.
Qed.

Lemma Supported_nonempty :
  CRLDistributionPoints cert <> [] -> Supported (Some cert) = true.
Proof.
  unfold Supported. destruct (CRLDistributionPoints cert); [contradiction|].
  reflexivity.
Qed.

(** What a returned result can be, for a certificate with a fetcher: OK
    after all URLs, Revoked at some URL, or Unknown at some URL. *)
Lemma CertCheckStatus_inv (w w' : World) (r : CertRevocationResult) :
  CRLDistributionPoints cert <> [] ->
  CertCheckStatus ctx (Some cert) issuer
    {| Fetcher := Some fetcher; SigningTime := signingTime |} w
  = (Returns r, w') ->
  (exists results,
     visits ctx cert issuer fetcher signingTime
       (CRLDistributionPoints cert) w results w' /\
     r = {| CRResult := ResultOK; ServerResults := results;
            CRRevocationMethod := RevocationMethodCRL |})
  \/
  (exists pre url post results w1,
     CRLDistributionPoints cert = pre ++ url :: post /\
     visits ctx cert issuer fetcher signingTime pre w results w1 /\
     resolves ctx cert issuer fetcher signingTime url w1
       (serverResult ResultRevoked url) w' /\
     r = {| CRResult := ResultRevoked;
            ServerResults := [serverResult ResultRevoked url];
            CRRevocationMethod := RevocationMethodCRL |})
  \/
  (exists pre url post results w1 e,
     CRLDistributionPoints cert = pre ++ url :: post /\
     visits ctx cert issuer fetcher signingTime pre w results w1 /\
     fails ctx cert issuer fetcher signingTime url w1 e w' /\
     r = {| CRResult := ResultUnknown;
            ServerResults :=
              [{| SRResult := ResultUnknown; Server := url;
                  SRError := Some e;
                  SRRevocationMethod := RevocationMethodCRL |}];
            CRRevocationMethod := RevocationMethodCRL |}).
Proof.
  intros Hurls.
  rewrite (CertCheckStatus_loop ctx cert issuer signingTime fetcher w
             (Supported_nonempty Hurls)).
  destruct (CertCheckStatus_range ctx cert issuer fetcher signingTime
              (hasFreshestCRL cert) (CRLDistributionPoints cert) _ w)
    as [[exit|] w1] eqn:Hrange; [|discriminate].
  apply range_inv in Hrange; [|reflexivity].
  destruct exit as [r0|vars'].
  - intros H. inversion H; subst. right; left. exact Hrange.
  - destruct Hrange as [(results & Hv & Hl & Hs)
                       |(pre & u & post & results & w2 & e
                         & Hsplit & Hv & Hf & Hl & Hu)];
      rewrite Hl; intros H; inversion H; subst.
    + left. exists results. rewrite Hs. auto.
    + right; right. exists pre, (crlURL vars'), post, results, w2, e. auto.
Qed.

(** X14. For a certificate with a fetcher, [CertCheckStatus] returns OK
    with a given list of server results exactly when the certificate has a
    distribution-point URL and every URL, in order, is fetched, validated
    and resolved without error to a status other than Revoked, with those
    results. *)
Theorem CertCheckStatus_ok_iff (w w' : World)
    (results : list ServerResult) :
  CertCheckStatus ctx (Some cert) issuer
    {| Fetcher := Some fetcher; SigningTime := signingTime |} w
  = (Returns {| CRResult := ResultOK; ServerResults := results;
                CRRevocationMethod := RevocationMethodCRL |}, w')
  <->
  CRLDistributionPoints cert <> [] /\
  visits ctx cert issuer fetcher signingTime
    (CRLDistributionPoints cert) w results w'.
Proof.
  split.
  - intros H.
    assert (Hurls : CRLDistributionPoints cert <> []).
    { intros Hnil. unfold CertCheckStatus, Supported in H.
      rewrite Hnil in H. discriminate. }
    split; [exact Hurls|].
    apply (CertCheckStatus_inv _ _ _ Hurls) in H.
    destruct H as [(rs & Hv & Hr)
                  |[(pre & u & post & rs & w1 & _ & _ & _ & Hr)
                   |(pre & u & post & rs & w1 & e & _ & _ & _ & Hr)]];
      try discriminate.
    inversion Hr; subst. exact Hv.
  - intros [Hurls Hv].
    rewrite (CertCheckStatus_loop ctx cert issuer signingTime fetcher w
               (Supported_nonempty Hurls)).
    destruct (range_visits_all _
                {| serverResults := []; lastErr := None; crlURL := "" |}
                _ _ _ Hv) as [u ->].
    reflexivity.
Qed.

(** X15. When [CertCheckStatus] returns OK, the server results are one OK
    result per distribution-point URL, in the order of the certificate,
    each without error, and the fetcher has been called once for each URL
    in that order. *)
Theorem CertCheckStatus_ok_results (w w' : World)
    (r : CertRevocationResult) :
  CertCheckStatus ctx (Some cert) issuer
    {| Fetcher := Some fetcher; SigningTime := signingTime |} w
  = (Returns r, w') ->
  CRResult r = ResultOK ->
  ServerResults r =
    map (serverResult ResultOK) (CRLDistributionPoints cert) /\
  fetched w' = fetched w ++ CRLDistributionPoints cert.
Proof.
  intros H Hok.
  assert (Hurls : CRLDistributionPoints cert <> []).
  { intros Hnil. unfold CertCheckStatus, Supported in H.
    rewrite Hnil in H. inversion H; subst. discriminate. }
  apply (CertCheckStatus_inv _ _ _ Hurls) in H.
  destruct H as [(rs & Hv & ->)
                |[(pre & u & post & rs & w1 & _ & _ & _ & ->)
                 |(pre & u & post & rs & w1 & e & _ & _ & _ & ->)]];
    try discriminate.
  split; [apply (visits_results _ _ _ _ Hv)|].
  apply (visits_fetched _ _ _ _ _ _ _ _ _ Hv).
Qed.

(** X16. [CertCheckStatus] returns Revoked only if some distribution-point
    URL resolves to Revoked after every URL before it resolved without
    error to another status; the single server result is the Revoked
    result of that URL, and the fetcher has been called for the URLs up to
    it and no other. *)
Theorem CertCheckStatus_revoked_only_if (w w' : World)
    (r : CertRevocationResult) :
  CertCheckStatus ctx (Some cert) issuer
    {| Fetcher := Some fetcher; SigningTime := signingTime |} w
  = (Returns r, w') ->
  CRResult r = ResultRevoked ->
  exists pre url post results w1,
    CRLDistributionPoints cert = pre ++ url :: post /\
    visits ctx cert issuer fetcher signingTime pre w results w1 /\
    resolves ctx cert issuer fetcher signingTime url w1
      (serverResult ResultRevoked url) w' /\
    ServerResults r = [serverResult ResultRevoked url] /\
    fetched w' = fetched w ++ pre ++ [url].
Proof.
  intros H Hrev.
  assert (Hurls : CRLDistributionPoints cert <> []).
  { intros Hnil. unfold CertCheckStatus, Supported in H.
    rewrite Hnil in H. inversion H; subst. discriminate. }
  apply (CertCheckStatus_inv _ _ _ Hurls) in H.
  destruct H as [(rs & Hv & ->)
                |[(pre & u & post & rs & w1 & Hsplit & Hv & Hres & ->)
                 |(pre & u & post & rs & w1 & e & _ & _ & _ & ->)]];
    try discriminate.
  exists pre, u, post, rs, w1. repeat split; auto.
  rewrite (resolves_fetched _ _ _ _ _ _ _ _ _ Hres),
    (visits_fetched _ _ _ _ _ _ _ _ _ Hv), app_assoc.
  reflexivity.
Qed.

(** X17. With a fetcher, [CertCheckStatus] returns Unknown only if a step
    failed for some distribution-point URL after every URL before it
    resolved without error to a status other than Revoked; the single
    server result carries that URL and the error of the failed step. *)
Theorem CertCheckStatus_unknown_only_if (w w' : World)
    (r : CertRevocationResult) :
  CertCheckStatus ctx (Some cert) issuer
    {| Fetcher := Some fetcher; SigningTime := signingTime |} w
  = (Returns r, w') ->
  CRResult r = ResultUnknown ->
  exists pre url post results w1 e,
    CRLDistributionPoints cert = pre ++ url :: post /\
    visits ctx cert issuer fetcher signingTime pre w results w1 /\
    fails ctx cert issuer fetcher signingTime url w1 e w' /\
    ServerResults r =
      [{| SRResult := ResultUnknown; Server := url; SRError := Some e;
          SRRevocationMethod := RevocationMethodCRL |}].
Proof.
  intros H Hunk.
  assert (Hurls : CRLDistributionPoints cert <> []).
  { intros Hnil. unfold CertCheckStatus, Supported in H.
    rewrite Hnil in H. inversion H; subst. discriminate. }
  apply (CertCheckStatus_inv _ _ _ Hurls) in H.
  destruct H as [(rs & Hv & ->)
                |[(pre & u & post & rs & w1 & _ & _ & _ & ->)
                 |(pre & u & post & rs & w1 & e & Hsplit & Hv & Hf & ->)]];
    try discriminate.
  exists pre, u, post, rs, w1, e. auto.
Qed.

End CertCheckStatusMore.

Section CertCheckStatusAny.

Context {lib : Libraries}.

(** X18. Whatever the certificate, the issuer, the options and the
    behaviour of the fetcher, and even when the check panics,
    [CertCheckStatus] calls the fetcher for a prefix of the certificate's
    distribution-point URLs, in their order, once each, and for nothing
    else. *)
Theorem CertCheckStatus_fetches_prefix (ctx : Context) (cert : Certificate)
    (issuer : option Certificate) (opts : CertCheckStatusOptions)
    (w : World) :
  exists p q,
    CRLDistributionPoints cert = p ++ q /\
    fetched (snd (CertCheckStatus ctx (Some cert) issuer opts w))
    = fetched w ++ p.
Proof.
  assert (Hnone : exists p q,
            CRLDistributionPoints cert = p ++ q /\
            fetched w = fetched w ++ p).
  { exists [], (CRLDistributionPoints cert).
    split; [reflexivity|symmetry; apply app_nil_r]. }
  unfold CertCheckStatus.
  destruct (Supported (Some cert)); [|exact Hnone].
  cbn [negb]. destruct (Fetcher opts) as [fetcher|]; [|exact Hnone].
  unfold bind. fold (hasFreshestCRL cert).
  destruct (CertCheckStatus_range ctx cert issuer fetcher (SigningTime opts)
              (hasFreshestCRL cert) (CRLDistributionPoints cert) _ w)
    as [[[r|vars]|] w1] eqn:Hrange;
    apply range_prefix in Hrange; try exact Hrange.
  destruct (lastErr vars); exact Hrange.
Qed.

(** X19. Every result [CertCheckStatus] returns has at least one server
    result, and each of its server results has the status of the whole
    result. *)
Theorem CertCheckStatus_results_agree (ctx : Context)
    (cert issuer : option Certificate) (opts : CertCheckStatusOptions)
    (w w' : World) (r : CertRevocationResult) :
  CertCheckStatus ctx cert issuer opts w = (Returns r, w') ->
  ServerResults r <> [] /\
  Forall (fun s => SRResult s = CRResult r) (ServerResults r).
Proof.
  intros H.
  assert (Hone : forall (r' : CertRevocationResult) s,
            ServerResults r' = [s] -> SRResult s = CRResult r' ->
            ServerResults r' <> [] /\
            Forall (fun s => SRResult s = CRResult r') (ServerResults r')).
  { intros r' s -> Hs. split; [discriminate|]. constructor; auto. }
  destruct cert as [c|].
  2:{ inversion H; subst. (eapply Hone; reflexivity). }
  destruct (CRLDistributionPoints c) as [|u urls] eqn:Hurls.
  { unfold CertCheckStatus, Supported in H. rewrite Hurls in H.
    inversion H; subst. (eapply Hone; reflexivity). }
  destruct opts as [[fetcher|] signingTime].
  2:{ unfold CertCheckStatus, Supported in H. rewrite Hurls in H.
      inversion H; subst. (eapply Hone; reflexivity). }
  assert (Hne : CRLDistributionPoints c <> [])
    by (rewrite Hurls; discriminate).
  apply (CertCheckStatus_inv _ _ _ _ _ _ _ _ Hne) in H.
  destruct H as [(rs & Hv & ->)
                |[(pre & url & post & rs & w1 & _ & _ & _ & ->)
                 |(pre & url & post & rs & w1 & e & _ & _ & _ & ->)]];
    try (eapply Hone; reflexivity).
  apply visits_results in Hv. subst rs. cbn [ServerResults CRResult].
  rewrite Hurls. split; [discriminate|].
  apply Forall_forall. intros s Hin. apply in_map_iff in Hin.
  destruct Hin as (x & <- & _). reflexivity.
Qed.

End CertCheckStatusAny.

Section SigningTime.

Context {lib : Libraries}.

Variables (cert : Certificate) (crlURL : string) (s s' : Time).

Hypothesis later : s' = 0 \/ (s <> 0 /\ s <= s').

Lemma short_circuit_earlier (x : entryExtensions) :
  signedBeforeInvalidity s' x = true -> signedBeforeInvalidity s x = true.
Proof.
  unfold signedBeforeInvalidity, IsZero, Before.
  rewrite !andb_true_iff, !negb_true_iff, !Z.eqb_neq, !Z.ltb_lt.
  intros [[Hs' Hd] Hlt]. destruct later as [H0|[Hs Hle]]; [contradiction|].
  repeat split; auto. lia.
Qed.

Lemma walk_later (entries : list RevocationListEntry)
    (acc : option RevocationListEntry) :
  checkRevocation_range cert s crlURL entries acc
  <> Return (Some (serverResult ResultOK crlURL), None) ->
  checkRevocation_range cert s' crlURL entries acc =
  checkRevocation_range cert s crlURL entries acc.
Proof.
  revert acc. induction entries as [|e entries IH]; intros acc;
    [reflexivity|].
  cbn [checkRevocation_range].
  destruct (Cmp (SerialNumber e) (CertSerialNumber cert) =? 0); [|apply IH].
  destruct (parseEntryExtensions e) as [x [err|]]; [reflexivity|].
  destruct (signedBeforeInvalidity s x) eqn:Hs; [congruence|].
  destruct (signedBeforeInvalidity s' x) eqn:Hs'.
  - apply short_circuit_earlier in Hs'. congruence.
  - destruct ((ReasonCode e =? reasonCodeCertificateHold)
              || (ReasonCode e =? reasonCodeRemoveFromCRL));
      [apply IH|reflexivity].
Qed.

(** X20. Signing later never helps: when [checkRevocation] returns Revoked
    or an error for a signing time that is set, it returns the same for
    every later signing time and for a signing time that is not set. *)
Theorem checkRevocation_later_signing (base : RevocationList)
    (delta : option RevocationList) :
  checkRevocation (Some cert) (Some (mkBundle (Some base) delta)) s crlURL
  <> (Some (serverResult ResultOK crlURL), None) ->
  checkRevocation (Some cert) (Some (mkBundle (Some base) delta)) s' crlURL =
  checkRevocation (Some cert) (Some (mkBundle (Some base) delta)) s crlURL.
Proof.
  rewrite !checkRevocation_walk. intros Hne.
  rewrite walk_later; [reflexivity|].
  intros Hw. apply Hne. rewrite Hw. reflexivity.
Qed.

End SigningTime.

Section NoPanic.

Context {lib : Libraries}.

Variables (ctx : Context) (cert : Certificate) (issuer : Certificate)
  (fetcher : crl_Fetcher) (signingTime : Time).

(** The signature check does not panic on a CRL and an issuer that are not
    nil. *)
Hypothesis signature_total :
  forall crl : RevocationList,
    CheckSignatureFrom (Some crl) (Some issuer) <> Panics.

(** The fetcher returns an error or a bundle with a base CRL, whose CRLs
    carry a CRL number. *)
Hypothesis fetcher_total :
  forall earlier url bundle,
    Fetch fetcher ctx earlier url = (bundle, None) ->
    exists b base,
      bundle = Some b /\ BaseCRL b = Some base /\
      Number base <> None /\
      (forall delta, DeltaCRL b = Some delta -> Number delta <> None).

Lemma validateCRL_returns (crl : RevocationList) (w : World) :
  exists err w',
    validateCRL (Some crl) (Some issuer) w = (Returns err, w').
Proof.
  unfold validateCRL, bind, time_Now, ret.
  destruct (CheckSignatureFrom (Some crl) (Some issuer)) as [[err|]|] eqn:Hs;
    [eauto| |exfalso; eapply signature_total; exact Hs].
  destruct (IsZero (NextUpdate crl)); [eauto|].
  destruct (After (clock w 0%nat) (NextUpdate crl)); eauto.
Qed.

Lemma validate_returns (b : Bundle) (base : RevocationList) (w : World) :
  BaseCRL b = Some base ->
  Number base <> None ->
  (forall delta, DeltaCRL b = Some delta -> Number delta <> None) ->
  exists err w',
    validate (Some b) (Some issuer) w = (Returns err, w').
Proof.
  intros Hb Hnb Hnd. unfold validate. rewrite Hb. unfold bind at 1.
  destruct (validateCRL_returns base w) as (e1 & w1 & ->).
  destruct e1 as [e1|]; [unfold ret; eauto|].
  destruct (DeltaCRL b) as [d|]; [|unfold ret; eauto].
  unfold bind at 1.
  destruct (validateCRL_returns d w1) as (e2 & w2 & ->).
  destruct e2 as [e2|]; [unfold ret; eauto|].
  unfold bind, lift.
  destruct (Number base) as [nb|]; [|contradiction].
  specialize (Hnd d eq_refl).
  destruct (Number d) as [nd|]; [|contradiction].
  cbn [CmpInt].
  destruct (Cmp nd nb <=? 0); [unfold ret; eauto|].
  destruct (FindExtensionByOID (Extensions d) oidDeltaCRLIndicator)
    as [ext|]; [|unfold ret; eauto].
  destruct (ReadASN1Integer (Value ext)) as [[m rest]|]; [|unfold ret; eauto].
  cbn [CmpInt].
  destruct (Cmp m nb >? 0); unfold ret; eauto.
Qed.

Lemma range_returns (urls : list string) (vars : loopVars) (w : World) :
  exists exit w',
    CertCheckStatus_range ctx cert (Some issuer) fetcher signingTime
      (hasFreshestCRL cert) urls vars w = (Returns exit, w').
Proof.
  revert vars w. induction urls as [|url urls IH]; intros vars w.
  - unfold CertCheckStatus_range, ret. eauto.
  - assert (Hfails : forall e w1,
              fails ctx cert (Some issuer) fetcher signingTime url w e w1 ->
              exists exit w',
                CertCheckStatus_range ctx cert (Some issuer) fetcher
                  signingTime (hasFreshestCRL cert) (url :: urls) vars w
                = (Returns exit, w')).
    { intros e w1 Hfail.
      rewrite (range_fails _ _ _ _ _ _ _ _ _ _ _ Hfail). eauto. }
    destruct (Fetch fetcher ctx (fetched w) url) as [bundle [err|]] eqn:Hf.
    { eapply Hfails. eapply fails_fetch. exact Hf. }
    destruct (fetcher_total _ _ _ Hf) as (b & base & -> & Hb & Hnb & Hnd).
    assert (Hcase : (hasFreshestCRL cert = true /\ DeltaCRL b = None) \/
                    (hasFreshestCRL cert = true -> DeltaCRL b <> None)).
    { destruct (hasFreshestCRL cert); [|right; discriminate].
      destruct (DeltaCRL b); [right; discriminate|left; auto]. }
    destruct Hcase as [[Hfr Hd]|Hfr].
    { eapply Hfails. eapply fails_freshest; eassumption. }
    destruct (validate_returns b base (called url w) Hb Hnb Hnd)
      as (ev & wv & Hv).
    destruct ev as [ev|].
    { eapply Hfails. eapply fails_validate; eassumption. }
    pose proof (checkRevocation_cases cert b signingTime url) as Hc.
    destruct (checkRevocation (Some cert) (Some b) signingTime url)
      as [[cr|] [err|]] eqn:Hres; try contradiction.
    + assert (Hr : resolves ctx cert (Some issuer) fetcher signingTime
                     url w cr wv) by (exists b; auto).
      rewrite (range_resolves _ _ _ _ _ _ _ _ _ _ _ Hr).
      destruct Hc as [->| ->]; cbn [SRResult serverResult];
        [apply IH|eauto].
    + eapply Hfails. eapply fails_resolve; eassumption.
Qed.

(** X21. With a certificate and an issuer that are not nil, serial numbers
    that are set, a signature check that does not panic on a CRL and an
    issuer that are not nil, and a fetcher that returns either an error or
    a bundle with a base CRL in which every CRL carries a CRL number,
    [CertCheckStatus] does not panic: it returns a result. *)
Theorem CertCheckStatus_returns (w : World) :
  exists r w',
    CertCheckStatus ctx (Some cert) (Some issuer)
      {| Fetcher := Some fetcher; SigningTime := signingTime |} w
    = (Returns r, w').
Proof.
  unfold CertCheckStatus.
  destruct (Supported (Some cert)); cbn [negb]; [|unfold ret; eauto].
  cbn [Fetcher SigningTime].
  unfold bind. fold (hasFreshestCRL cert).
  destruct (range_returns (CRLDistributionPoints cert)
              {| serverResults := []; lastErr := None; crlURL := "" |} w)
    as (exit & w' & ->).
  destruct exit as [r|vars]; [unfold ret; eauto|].
  destruct (lastErr vars); unfold ret; eauto.
Qed.

End NoPanic.

Section MoreInstances.

Import Doubles.

(** X3 at two bundles that list the same entries for serial 42, split
    differently between base and delta and mixed with other serials. *)
Lemma checkRevocation_only_matching_witness :
  checkRevocation (Some (cert42 ["u"]))
    (Some (mkBundle
       (Some (crlOf 5 2000 [entry 7 5 1 []; entry 42 10 6 []] []))
       (Some (crlOf 6 2000 [entry 42 20 8 []] []))))
    500 "u"
  = checkRevocation (Some (cert42 ["u"]))
      (Some (mkBundle
         (Some (crlOf 9 3000
                  [entry 42 10 6 []; entry 42 20 8 []; entry 9 30 1 []] []))
         None))
      500 "u".
Proof.
  apply (checkRevocation_only_matching (lib := libraries)
           (cert42 ["u"]) 500 "u"
           (crlOf 5 2000 [entry 7 5 1 []; entry 42 10 6 []] [])
           (crlOf 9 3000
              [entry 42 10 6 []; entry 42 20 8 []; entry 9 30 1 []] [])
           (Some (crlOf 6 2000 [entry 42 20 8 []] [])) None).
  reflexivity.
Defined.

(** X4 at a bundle that lists serials 7 and 9 only. *)
Lemma checkRevocation_not_listed_witness :
  checkRevocation (Some (cert42 ["u"]))
    (Some (mkBundle
       (Some (crlOf 5 2000 [entry 7 5 1 [unknownCritical]] []))
       (Some (crlOf 6 2000 [entry 9 20 1 []] []))))
    500 "u"
  = (Some (serverResult ResultOK "u"), None).
Proof.
  apply (checkRevocation_not_listed (lib := libraries)
           (cert42 ["u"]) 500 "u"
           (crlOf 5 2000 [entry 7 5 1 [unknownCritical]] [])
           (Some (crlOf 6 2000 [entry 9 20 1 []] []))).
  intros e [<-|[<-|[]]]; vm_compute; discriminate.
Defined.

(** X5 at a bundle whose second entry for serial 42 has an invalidity date
    followed by one trailing byte. *)
Lemma checkRevocation_parse_error_witness :
  checkRevocation (Some (cert42 ["u"]))
    (Some (mkBundle
       (Some (crlOf 5 2000
                [entry 42 10 6 [];
                 entry 42 20 1 [invalidityDateExt (der_20240110 ++ [x00])];
                 entry 42 30 8 []] []))
       None))
    500 "u"
  = (None,
     Some (Errorf "invalid invalidity date extension: trailing data" [])).
Proof.
  apply (checkRevocation_parse_error (lib := libraries)
           (cert42 ["u"]) 500 "u" _ None
           [entry 42 10 6 []] [entry 42 30 8 []]
           (entry 42 20 1 [invalidityDateExt (der_20240110 ++ [x00])])
           (Some (entry 42 10 6 [])) entryExtensions_zero).
  - reflexivity.
  - reflexivity.
  - reflexivity.
  - reflexivity.
Defined.

(** X6 at a keyCompromise entry with invalidity date 2024-01-01, for a
    signature made on 2024-01-10. *)
Lemma checkRevocation_signed_not_before_witness :
  checkRevocation (Some (cert42 ["u"]))
    (Some (mkBundle
       (Some (crlOf 5 2000
                [entry 42 10 1 [invalidityDateExt der_20240101]] []))
       None))
    t_20240110 "u"
  = (Some (serverResult ResultRevoked "u"), None).
Proof.
  apply (checkRevocation_signed_not_before (lib := libraries)
           (cert42 ["u"]) t_20240110 "u" _ None
           [] [] (entry 42 10 1 [invalidityDateExt der_20240101])
           None {| invalidityDate := t_20240101 |}).
  - reflexivity.
  - reflexivity.
  - reflexivity.
  - reflexivity.
  - right; right. vm_compute. discriminate.
  - vm_compute. discriminate.
  - vm_compute. discriminate.
Defined.

(** X7 at a certificateHold in the base CRL and a removeFromCRL with the
    same revocation time in the delta CRL. *)
Lemma checkRevocation_tie_keeps_first_witness :
  checkRevocation (Some (cert42 ["u"]))
    (Some (mkBundle
       (Some (crlOf 5 2000 [entry 42 10 6 []] []))
       (Some (crlOf 6 2000 [entry 42 10 8 []] []))))
    500 "u"
  = (Some (serverResult ResultRevoked "u"), None).
Proof.
  apply (checkRevocation_tie_keeps_first (lib := libraries)
           (cert42 ["u"]) 500 "u"
           (crlOf 5 2000 [entry 42 10 6 []] [])
           (Some (crlOf 6 2000 [entry 42 10 8 []] []))
           (entry 42 10 6 []) [entry 42 10 8 []]).
  - intros e [<-|[<-|[]]] _;
      (split; [(left; reflexivity) || (right; reflexivity)
              |split; reflexivity]).
  - reflexivity.
  - intros e [<-|[]]. vm_compute. discriminate.
Defined.

(** X12 at a certificate without distribution-point URLs. *)
Lemma CertCheckStatus_not_supported_witness :
  CertCheckStatus tt (Some (cert42 [])) (Some issuer)
    {| Fetcher := Some (fetcherOf [("a", (Some revokingBundle, None))]);
       SigningTime := 0 |} world0
  = (Returns {| CRResult := ResultNonRevokable;
                ServerResults :=
                  [{| SRResult := ResultNonRevokable; Server := "";
                      SRError := Some (New "CRL is not supported");
                      SRRevocationMethod := RevocationMethodCRL |}];
                CRRevocationMethod := RevocationMethodCRL |}, world0).
Proof.
  apply (CertCheckStatus_not_supported (lib := libraries)).
  right. exists (cert42 []). split; reflexivity.
Defined.

(** X13 at a certificate with one URL and no fetcher. *)
Lemma CertCheckStatus_nil_fetcher_witness :
  CertCheckStatus tt (Some (cert42 ["a"])) (Some issuer)
    {| Fetcher := None; SigningTime := 0 |} world0
  = (Returns {| CRResult := ResultUnknown;
                ServerResults :=
                  [{| SRResult := ResultUnknown; Server := "";
                      SRError := Some (New "CRL fetcher cannot be nil");
                      SRRevocationMethod := RevocationMethodCRL |}];
                CRRevocationMethod := RevocationMethodCRL |}, world0).
Proof.
  apply (CertCheckStatus_nil_fetcher (lib := libraries)).
  discriminate.
Defined.

(** X15 at a certificate with two URLs that both serve a clean CRL. *)
Lemma CertCheckStatus_ok_results_witness :
  ServerResults
    {| CRResult := ResultOK;
       ServerResults := [serverResult ResultOK "a"; serverResult ResultOK "b"];
       CRRevocationMethod := RevocationMethodCRL |}
  = map (serverResult ResultOK) ["a"; "b"]
  /\ fetched (tick (called "b" (tick (called "a" world0)))) =
     fetched world0 ++ ["a"; "b"].
Proof.
  apply (CertCheckStatus_ok_results (lib := libraries) tt
           (cert42 ["a"; "b"]) (Some issuer)
           (fetcherOf [("a", (Some cleanBundle, None));
                       ("b", (Some cleanBundle, None))]) 0 world0).
  - reflexivity.
  - reflexivity.
Defined.

(** X16 at a certificate with three URLs, the second of which serves a
    CRL that revokes the certificate. *)
Lemma CertCheckStatus_revoked_only_if_witness :
  let fetcher := fetcherOf [("a", (Some cleanBundle, None));
                            ("b", (Some revokingBundle, None));
                            ("c", (Some cleanBundle, None))] in
  let w' := tick (called "b" (tick (called "a" world0))) in
  exists pre url post results w1,
    ["a"; "b"; "c"] = pre ++ url :: post /\
    visits tt (cert42 ["a"; "b"; "c"]) (Some issuer) fetcher 0 pre world0
      results w1 /\
    resolves tt (cert42 ["a"; "b"; "c"]) (Some issuer) fetcher 0 url w1
      (serverResult ResultRevoked url) w' /\
    [serverResult ResultRevoked "b"] = [serverResult ResultRevoked url] /\
    fetched w' = fetched world0 ++ pre ++ [url].
Proof.
  cbv zeta.
  apply (CertCheckStatus_revoked_only_if (lib := libraries) tt
           (cert42 ["a"; "b"; "c"]) (Some issuer)
           (fetcherOf [("a", (Some cleanBundle, None));
                       ("b", (Some revokingBundle, None));
                       ("c", (Some cleanBundle, None))]) 0 world0
           (tick (called "b" (tick (called "a" world0))))
           {| CRResult := ResultRevoked;
              ServerResults := [serverResult ResultRevoked "b"];
              CRRevocationMethod := RevocationMethodCRL |}).
  - reflexivity.
  - reflexivity.
Defined.

(** X17 at a certificate with two URLs, the second of which serves an
    expired CRL. *)
Lemma CertCheckStatus_unknown_only_if_witness :
  let fetcher :=
    fetcherOf [("a", (Some cleanBundle, None));
               ("b", (Some (mkBundle (Some (crlOf 5 900 [] [])) None),
                      None))] in
  let w' := tick (called "b" (tick (called "a" world0))) in
  exists pre url post results w1 e,
    ["a"; "b"] = pre ++ url :: post /\
    visits tt (cert42 ["a"; "b"]) (Some issuer) fetcher 0 pre world0
      results w1 /\
    fails tt (cert42 ["a"; "b"]) (Some issuer) fetcher 0 url w1 e w' /\
    [{| SRResult := ResultUnknown; Server := "b";
        SRError :=
          Some (Errorf "failed to validate CRL from %s: %w"
                  [ArgStr "b";
                   ArgErr (Errorf "failed to validate base CRL: %w"
                     [ArgErr (Errorf
                        "expired CRL. Current time %v is after CRL NextUpdate %v"
                        [ArgTime 1001; ArgTime 900])])]);
        SRRevocationMethod := RevocationMethodCRL |}]
    = [{| SRResult := ResultUnknown; Server := url; SRError := Some e;
          SRRevocationMethod := RevocationMethodCRL |}].
Proof.
  cbv zeta.
  apply (CertCheckStatus_unknown_only_if (lib := libraries) tt
           (cert42 ["a"; "b"]) (Some issuer)
           (fetcherOf
              [("a", (Some cleanBundle, None));
               ("b", (Some (mkBundle (Some (crlOf 5 900 [] [])) None),
                      None))]) 0 world0
           (tick (called "b" (tick (called "a" world0))))
           {| CRResult := ResultUnknown;
              ServerResults :=
                [{| SRResult := ResultUnknown; Server := "b";
                    SRError :=
                      Some (Errorf "failed to validate CRL from %s: %w"
                        [ArgStr "b";
                         ArgErr (Errorf "failed to validate base CRL: %w"
                           [ArgErr (Errorf
                              "expired CRL. Current time %v is after CRL NextUpdate %v"
                              [ArgTime 1001; ArgTime 900])])]);
                    SRRevocationMethod := RevocationMethodCRL |}];
              CRRevocationMethod := RevocationMethodCRL |}).
  - reflexivity.
  - reflexivity.
Defined.

(** X19 at a certificate with two URLs that both serve a clean CRL. *)
Lemma CertCheckStatus_results_agree_witness :
  [serverResult ResultOK "a"; serverResult ResultOK "b"] <> [] /\
  Forall (fun s => SRResult s = ResultOK)
    [serverResult ResultOK "a"; serverResult ResultOK "b"].
Proof.
  apply (CertCheckStatus_results_agree (lib := libraries) tt
           (Some (cert42 ["a"; "b"])) (Some issuer)
           {| Fetcher :=
                Some (fetcherOf [("a", (Some cleanBundle, None));
                                 ("b", (Some cleanBundle, None))]);
              SigningTime := 0 |} world0
           (tick (called "b" (tick (called "a" world0))))
           {| CRResult := ResultOK;
              ServerResults :=
                [serverResult ResultOK "a"; serverResult ResultOK "b"];
              CRRevocationMethod := RevocationMethodCRL |}).
  reflexivity.
Defined.

(** X20 at a keyCompromise entry with invalidity date 2024-01-10: Revoked
    for a signature made at that instant, and for one made later. *)
Lemma checkRevocation_later_signing_witness :
  checkRevocation (Some (cert42 ["u"]))
    (Some (mkBundle
       (Some (crlOf 5 2000
                [entry 42 10 1 [invalidityDateExt der_20240110]] []))
       None))
    (t_20240110 + 1) "u"
  = checkRevocation (Some (cert42 ["u"]))
      (Some (mkBundle
         (Some (crlOf 5 2000
                  [entry 42 10 1 [invalidityDateExt der_20240110]] []))
         None))
      t_20240110 "u".
Proof.
  apply (checkRevocation_later_signing (lib := libraries)
           (cert42 ["u"]) "u" t_20240110 (t_20240110 + 1)).
  - right. split; vm_compute; discriminate.
  - vm_compute. discriminate.
Defined.

(** X21 at a certificate with two URLs and a table-driven fetcher. *)
Lemma CertCheckStatus_returns_witness :
  exists r w',
    CertCheckStatus tt (Some (cert42 ["a"; "b"])) (Some issuer)
      {| Fetcher :=
           Some (fetcherOf [("a", (Some cleanBundle, None));
                            ("b", (Some revokingBundle, None))]);
         SigningTime := 0 |} world0
    = (Returns r, w').
Proof.
  apply (CertCheckStatus_returns (lib := libraries) tt
           (cert42 ["a"; "b"]) issuer
           (fetcherOf [("a", (Some cleanBundle, None));
                       ("b", (Some revokingBundle, None))]) 0).
  - intros crl. simpl. unfold checkSignatureFrom.
    destruct (Signature crl) as [|b0 [|b1 rest]];
      try discriminate; destruct b0; discriminate.
  - intros earlier url bundle. cbn [Fetch fetcherOf lookup].
    destruct (String.eqb "a" url);
      [intros H; inversion H; subst; eexists; eexists;
       split; [reflexivity|]; split; [reflexivity|];
       split; [|intros delta]; discriminate|].
    destruct (String.eqb "b" url);
      [intros H; inversion H; subst; eexists; eexists;
       split; [reflexivity|]; split; [reflexivity|];
       split; [|intros delta]; discriminate|].
    discriminate.
Defined.

End MoreInstances.
